(** * idb: the HID command line front end and the video stream options

    A shallow embedding of [idb/cli/commands/hid.py] and of
    [VideoStreamCommand] from [idb/cli/commands/video.py]: its options,
    [_build_stream_config], [_validate_args] and the call of
    [client.stream_video]; with the swipe interpolation that runs behind
    [client.swipe] stated over the real numbers.

    Python values are modelled as follows.
    - [str] is [string]; a character stands for a code point below 256.
    - [int] is [Z]; [float] is IEEE binary64, as [spec_float] with
      precision 53 and maximal exponent 1024.
    - a [dict] with [str] keys is a [gmap string _].
    - an exception is a value [exn]; only subclasses of [Exception] are
      modelled.  [KeyboardInterrupt], [CancelledError] and [GeneratorExit]
      derive from [BaseException], are caught by none of the handlers of
      these files and belong to task cancellation.
    - statements run in the monad [M]: a trace of the effects performed so
      far (events yielded, log records, client calls) and the way the
      statement ended (normally, by [raise], by [break], by [continue]). *)

From Stdlib Require Import ZArith String Ascii List Bool Lia DecimalString.
From Stdlib Require Import Floats.SpecFloat.
From Stdlib Require Import Reals Lra.
From stdpp Require Import gmap strings.
Import ListNotations.

Local Open Scope string_scope.
Local Open Scope Z_scope.
Local Open Scope list_scope.

(** ** Python strings *)

Module Str.

(** [str.isspace] on a single character, for the code points below 256:
    U+0009..U+000D, U+001C..U+0020, U+0085 and U+00A0. *)
Definition isspace (c : ascii) : bool :=
  let n := N_of_ascii c in
  ((9 <=? n) && (n <=? 13) || (28 <=? n) && (n <=? 32)
   || (n =? 133) || (n =? 160))%N.

Fixpoint lstrip (s : string) : string :=
  match s with
  | EmptyString => EmptyString
  | String c s' => if isspace c then lstrip s' else s
  end.

Fixpoint rstrip (s : string) : string :=
  match s with
  | EmptyString => EmptyString
  | String c s' =>
      match rstrip s' with
      | EmptyString => if isspace c then EmptyString else String c EmptyString
      | r => String c r
      end
  end.

(** [s.strip()] *)
Definition strip (s : string) : string := rstrip (lstrip s).

(** [not s] for a [str]: the empty string is the only falsy one. *)
Definition is_empty (s : string) : bool :=
  match s with EmptyString => true | _ => false end.

(** [s.replace(a, b)] for single characters [a] and [b]. *)
Fixpoint replace (a b : ascii) (s : string) : string :=
  match s with
  | EmptyString => EmptyString
  | String c s' => String (if Ascii.eqb c a then b else c) (replace a b s')
  end.

(** [sub in s] for two strings. *)
Fixpoint contains (s sub : string) : bool :=
  String.prefix sub s
  || match s with
     | EmptyString => false
     | String _ s' => contains s' sub
     end.

(** Every character of [s] is whitespace. *)
Fixpoint all_space (s : string) : bool :=
  match s with
  | EmptyString => true
  | String c s' => isspace c && all_space s'
  end.

End Str.

(** ** Python values *)

Abbreviation float := spec_float.

Definition prec : Z := 53.
Definition emax : Z := 1024.

(** What [json.loads] can return: [None], [bool], [int], [float], [str],
    [list] and [dict]. *)
#[warnings="-register-all"]
Inductive json : Type :=
| JNull
| JBool (b : bool)
| JInt (z : Z)
| JFloat (f : float)
| JStr (s : string)
| JList (l : list json)
| JDict (d : gmap string json).

(** The exception classes that occur, with [Exception] at the root. *)
Inductive exn_class : Type :=
| Exception
| ValueError
| JSONDecodeError
| TypeError
| KeyError
| OverflowError
| RecursionError
| OSError.

(** An exception: its class, the text of its message and, where the
    message interpolates a value, that value. *)
Record exn : Type := Exn {
  exn_cls : exn_class;
  exn_msg : string;
  exn_arg : option json
}.

Definition exn_class_eqb (a b : exn_class) : bool :=
  match a, b with
  | Exception, Exception | ValueError, ValueError
  | JSONDecodeError, JSONDecodeError | TypeError, TypeError
  | KeyError, KeyError | OverflowError, OverflowError
  | RecursionError, RecursionError | OSError, OSError => true
  | _, _ => false
  end.

(** [issubclass]: every class derives from [Exception], and
    [JSONDecodeError] derives from [ValueError]. *)
Definition issubclass (c super : exn_class) : bool :=
  match super with
  | Exception => true
  | ValueError => exn_class_eqb c ValueError || exn_class_eqb c JSONDecodeError
  | _ => exn_class_eqb c super
  end.

Definition isinstance (e : exn) (c : exn_class) : bool :=
  issubclass (exn_cls e) c.

(** ** The data model of [idb.common.types] *)

(** Modelled from the spec: [idb/common/types.py] is not among the sources;
    [Point], [Direction], [Action] and [PrimitiveEvent] of the data model
    are given the names under which [hid.py] imports them.  A button is
    identified by the name of its enumeration member. *)
Record Point : Type := mkPoint { x : float; y : float }.

Inductive HIDDirection : Type := DOWN | UP.

Inductive HIDPressAction : Type :=
| HIDTouch (point : Point)
| HIDButton (button : string)
| HIDKey (keycode : Z).

Inductive HIDEvent : Type :=
| HIDPress (action : HIDPressAction) (direction : HIDDirection)
| HIDDelay (duration : float).

(** The calls [hid.py] makes on the [Client] it is given. *)
Inductive client_call : Type :=
| client_key (keycode : Z) (duration : option float)
| client_key_sequence (key_sequence : list Z).

(** ** Effects and control flow *)

Inductive log_level : Type := INFO | WARNING | ERROR.

Inductive effect : Type :=
| Yield (ev : HIDEvent)
| Log (level : log_level) (msg : string) (cause : option exn)
| Call (c : client_call).

Inductive outcome (A : Type) : Type :=
| Normal (a : A)
| Raised (e : exn)
| Broke
| Continued.
Arguments Normal {A} a.
Arguments Raised {A} e.
Arguments Broke {A}.
Arguments Continued {A}.

Definition M (A : Type) : Type := (list effect * outcome A)%type.

Definition ret {A} (a : A) : M A := ([], Normal a).

Definition bind {A B} (m : M A) (k : A -> M B) : M B :=
  match m with
  | (t, Normal a) => let '(t', r) := k a in (t ++ t', r)
  | (t, Raised e) => (t, Raised e)
  | (t, Broke) => (t, Broke)
  | (t, Continued) => (t, Continued)
  end.

Declare Scope py_scope.
Delimit Scope py_scope with py.
Notation "v <- m ;; k" := (bind m (fun v => k))
  (at level 100, m at next level, right associativity) : py_scope.
Notation "m ;; k" := (bind m (fun _ => k))
  (at level 100, right associativity) : py_scope.
Local Open Scope py_scope.

Definition raise {A} (e : exn) : M A := ([], Raised e).
Definition break {A} : M A := ([], Broke).
Definition continue {A} : M A := ([], Continued).
Definition yield (ev : HIDEvent) : M unit := ([Yield ev], Normal tt).
Definition log (level : log_level) (msg : string) (cause : option exn) : M unit :=
  ([Log level msg cause], Normal tt).
Definition call (c : client_call) : M unit := ([Call c], Normal tt).

(** [if c: body] with no [else]. *)
Definition when (c : bool) (body : M unit) : M unit :=
  if c then body else ret tt.

(** [try: body / except cls as e: handler e] *)
Definition try_except {A} (body : M A) (cls : exn_class) (handler : exn -> M A) : M A :=
  match body with
  | (t, Raised e) =>
      if isinstance e cls then let '(t', r) := handler e in (t ++ t', r)
      else (t, Raised e)
  | done => done
  end.

(** A library function that returns or raises, run as a statement. *)
Definition lift {A} (r : exn + A) : M A :=
  match r with
  | inl e => raise e
  | inr a => ret a
  end.

(** The events yielded and the records logged along a trace, in order. *)
Definition events (t : list effect) : list HIDEvent :=
  omap (fun e => match e with Yield ev => Some ev | _ => None end) t.

Definition diagnostics (t : list effect) : list (log_level * string * option exn) :=
  omap (fun e => match e with Log l m c => Some (l, m, c) | _ => None end) t.

Definition calls (t : list effect) : list client_call :=
  omap (fun e => match e with Call c => Some c | _ => None end) t.

(** The records logged as errors along a trace. *)
Definition errors (t : list effect) : list (string * option exn) :=
  omap (fun e => match e with Log ERROR m c => Some (m, c) | _ => None end) t.

(** ** The builtins the bridge uses *)

(** [float(n)] for an [int]: the nearest binary64 value, ties to even;
    [OverflowError] when that value is not finite. *)
Definition float_of_int (z : Z) : exn + float :=
  match binary_normalize prec emax z 0 false with
  | S754_infinity _ =>
      inl (Exn OverflowError "int too large to convert to float" None)
  | f => inr f
  end.

(** A decimal [float] literal: the binary64 value nearest to
    [m * 10 ^ e10], ties to even, for [0 <= m], with the sign [neg]. *)
Definition float_of_decimal (neg : bool) (m e10 : Z) : float :=
  match m with
  | Z0 => S754_zero neg
  | Zpos p =>
      if 0 <=? e10 then binary_round prec emax neg (p * Z.to_pos (10 ^ e10)) 0
      else SFdiv prec emax (S754_finite neg p 0)
                           (S754_finite false (Z.to_pos (10 ^ (- e10))) 0)
  | Zneg _ => S754_nan
  end.

(** [key in container] for a [str] key: key lookup in a [dict], a search
    for an equal element in a [list], a substring test in a [str];
    [TypeError] for the values that are not containers. *)
Definition py_in (key : string) (container : json) : M bool :=
  match container with
  | JDict d => ret (bool_decide (is_Some (d !! key)))
  | JList l =>
      ret (existsb (fun v => match v with
                             | JStr s => String.eqb s key
                             | _ => false
                             end) l)
  | JStr s => ret (Str.contains s key)
  | _ => raise (Exn TypeError "argument is not iterable" (Some container))
  end.

(** [all(key in container for key in keys)]: stops at the first key that
    is absent. *)
Fixpoint all_in (keys : list string) (container : json) : M bool :=
  match keys with
  | [] => ret true
  | key :: keys' =>
      b <- py_in key container ;;
      if b then all_in keys' container else ret false
  end.

(** [container[key]] for a [str] key. *)
Definition getitem (container : json) (key : string) : M json :=
  match container with
  | JDict d =>
      match d !! key with
      | Some v => ret v
      | None => raise (Exn KeyError key None)
      end
  | JList _ =>
      raise (Exn TypeError "list indices must be integers or slices, not str" None)
  | JStr _ =>
      raise (Exn TypeError "string indices must be integers, not 'str'" None)
  | _ => raise (Exn TypeError "object is not subscriptable" (Some container))
  end.

(** [v in d] and [d[v]] for a [dict] [d] with [str] keys: a [list] or a
    [dict] cannot be hashed, a [str] is looked up, and any other value is
    equal to no [str]. *)
Definition dict_get {A} (d : gmap string A) (v : json) : M (option A) :=
  match v with
  | JStr s => ret (d !! s)
  | JList _ => raise (Exn TypeError "unhashable type: 'list'" None)
  | JDict _ => raise (Exn TypeError "unhashable type: 'dict'" None)
  | _ => ret None
  end.

(** * [hid.py] *)

Module Hid.

Section WithLibrary.

(** [json.loads], and the builtins [float] and [int] applied to a [str]:
    library functions, each of which returns a value or raises.  [float]
    and [int] raise nothing but [ValueError] on a [str]. *)
Variable json_loads : string -> exn + json.
Variable float_of_str : string -> option float.
Variable int_of_str : string -> option Z.

(** [float(v)] *)
Definition py_float (v : json) : M float :=
  match v with
  | JBool b => lift (float_of_int (Z.b2z b))
  | JInt z => lift (float_of_int z)
  | JFloat f => ret f
  | JStr s =>
      match float_of_str s with
      | Some f => ret f
      | None => raise (Exn ValueError "could not convert string to float: " (Some v))
      end
  | _ => raise (Exn TypeError "float() argument must be a string or a real number" (Some v))
  end.

(** [int(s)] for a [str] *)
Definition py_int (s : string) : M Z :=
  match int_of_str s with
  | Some z => ret z
  | None => raise (Exn ValueError "invalid literal for int() with base 10: " (Some (JStr s)))
  end.

(** ** [StreamTouchCommand] *)

Definition direction_map : gmap string HIDDirection :=
  <["touch_start" := DOWN]> (<["touch_move" := DOWN]> (<["touch_end" := UP]> ∅)).

(** [convert_touch_event_to_hid], lines 219-242. *)
Definition convert_touch_event_to_hid (event : json) : M HIDEvent :=
  present <- all_in ["type"; "x"; "y"] event ;;
  when (negb present)
    (raise (Exn ValueError "Missing required fields in event: " (Some event))) ;;
  ex <- getitem event "x" ;;
  fx <- py_float ex ;;
  ey <- getitem event "y" ;;
  fy <- py_float ey ;;
  let point := {| x := fx; y := fy |} in
  let touch := HIDTouch point in
  event_type <- getitem event "type" ;;
  found <- dict_get direction_map event_type ;;
  match found with
  | None => raise (Exn ValueError "Unknown touch event type: " (Some event_type))
  | Some direction => ret (HIDPress touch direction)
  end.

(** What one [await loop.run_in_executor(None, sys.stdin.readline)] gives:
    the line it returns, with its terminator, the empty string once the
    input is at its end, or the exception it raises. *)
Inductive read_outcome : Type :=
| Returned (line : string)
| Raises (e : exn).

Definition readline (r : read_outcome) : M string :=
  match r with
  | Returned line => ret line
  | Raises e => raise e
  end.

(** The body of [while True] in [read_touch_events_from_stdin], lines
    189-217, for the read that this iteration performs. *)
Definition loop_body (r : read_outcome) : M unit :=
  try_except
    (line <- readline r ;;
     when (Str.is_empty line)
       (log INFO "Received EOF, ending stream" None ;; break) ;;
     let line := Str.strip line in
     when (Str.is_empty line) continue ;;
     event_dict <- try_except (lift (json_loads line))
                     JSONDecodeError
                     (fun e => log WARNING "Invalid JSON: " (Some e) ;; continue) ;;
     try_except
       (hid_event <- convert_touch_event_to_hid event_dict ;;
        yield hid_event)
       Exception
       (fun e => log WARNING "Failed to convert event: " (Some e) ;; continue))
    Exception
    (fun e => log ERROR "Error reading stdin: " (Some e) ;; break).

(** The states of the generator: suspended in the loop, waiting for the
    next read, or returned. *)
Inductive bridge_state : Type := Reading | Closed.

(** [while True: loop_body], run over the reads that [stdin] supplies.
    When these are used up the generator is still [Reading]; a feed that
    ends is one whose last read returns the empty string. *)
Fixpoint while_true (stdin : list read_outcome) : M bridge_state :=
  match stdin with
  | [] => ret Reading
  | r :: stdin' =>
      match loop_body r with
      | (t, Normal _) | (t, Continued) =>
          let '(t', s) := while_true stdin' in (t ++ t', s)
      | (t, Broke) => (t, Normal Closed)
      | (t, Raised e) => (t, Raised e)
      end
  end.

(** [read_touch_events_from_stdin], lines 182-217. *)
Definition read_touch_events_from_stdin (stdin : list read_outcome) : M bridge_state :=
  log INFO "Starting touch event stream from stdin..." None ;;
  while_true stdin.

(** The reads of a feed of [lines] that then ends. *)
Definition finite_feed (lines : list string) : list read_outcome :=
  map Returned lines ++ [Returned ""].

(** ** The lines of a feed *)

(** The [type] values the bridge recognises, with the direction each
    stands for. *)
Inductive touch_type : string -> HIDDirection -> Prop :=
| touch_start : touch_type "touch_start" DOWN
| touch_move : touch_type "touch_move" DOWN
| touch_end : touch_type "touch_end" UP.

(** [line] is the text of the JSON value [v]: it is not blank, and
    [json.loads] returns [v] on it once stripped. *)
Definition decodes (line : string) (v : json) : Prop :=
  Str.strip line <> "" /\ json_loads (Str.strip line) = inr v.

(** [line] is not valid JSON: [json.loads] raises [JSONDecodeError] on it
    once stripped. *)
Definition invalid_json (line : string) : Prop :=
  exists e, json_loads (Str.strip line) = inl e
            /\ isinstance e JSONDecodeError = true.

(** [line] is a JSON object whose [type] is one of the three recognised
    values, of direction [dir], and whose [x] and [y] are [vx] and [vy]. *)
Definition touch_object (line : string) (dir : HIDDirection) (vx vy : json) : Prop :=
  exists d ty,
    decodes line (JDict d)
    /\ d !! "type" = Some (JStr ty) /\ touch_type ty dir
    /\ d !! "x" = Some vx /\ d !! "y" = Some vy.

(** [line] is such an object, [float] accepts its [x] and [y], and [ev]
    is the press of that direction at that point. *)
Definition touch_line (line : string) (ev : HIDEvent) : Prop :=
  exists dir vx vy fx fy,
    touch_object line dir vx vy
    /\ py_float vx = ret fx /\ py_float vy = ret fy
    /\ ev = HIDPress (HIDTouch {| x := fx; y := fy |}) dir.

(** The value [v] lacks a required field: it is no object, or an object
    without one of [type], [x], [y]. *)
Definition lacks_field (v : json) : Prop :=
  forall d, v = JDict d ->
            d !! "type" = None \/ d !! "x" = None \/ d !! "y" = None.

(** The value [v] is an object whose [type] is none of the three
    recognised values. *)
Definition unrecognized_type (v : json) : Prop :=
  exists d ty, v = JDict d /\ d !! "type" = Some ty
               /\ forall s dir, ty = JStr s -> ~ touch_type s dir.

(** The per-line faults: a line, not blank, that is not valid JSON, or
    whose value lacks a required field, or has an unrecognised [type]. *)
Inductive malformed (line : string) : Prop :=
| malformed_json :
    Str.strip line <> "" -> invalid_json line -> malformed line
| malformed_fields v :
    decodes line v -> lacks_field v -> malformed line
| malformed_type v :
    decodes line v -> unrecognized_type v -> malformed line.

(** The ways an iteration of the loop can end, with the trace of each. *)
Inductive iteration : read_outcome -> list effect -> outcome unit -> Prop :=
| it_eof :
    iteration (Returned "")
      [Log INFO "Received EOF, ending stream" None] Broke
| it_read_fault e :
    iteration (Raises e) [Log ERROR "Error reading stdin: " (Some e)] Broke
| it_blank line :
    line <> "" -> Str.strip line = "" ->
    iteration (Returned line) [] Continued
| it_invalid_json line e :
    Str.strip line <> "" ->
    json_loads (Str.strip line) = inl e -> isinstance e JSONDecodeError = true ->
    iteration (Returned line) [Log WARNING "Invalid JSON: " (Some e)] Continued
| it_loads_raises line e :
    Str.strip line <> "" ->
    json_loads (Str.strip line) = inl e -> isinstance e JSONDecodeError = false ->
    iteration (Returned line) [Log ERROR "Error reading stdin: " (Some e)] Broke
| it_event line v ev :
    decodes line v ->
    convert_touch_event_to_hid v = ([], Normal ev) ->
    iteration (Returned line) [Yield ev] (Normal tt)
| it_convert_raises line v e :
    decodes line v ->
    convert_touch_event_to_hid v = ([], Raised e) ->
    iteration (Returned line)
      [Log WARNING "Failed to convert event: " (Some e)] Continued.

Definition is_press (ev : HIDEvent) : bool :=
  match ev with
  | HIDPress _ _ => true
  | HIDDelay _ => false
  end.

(** A read after which the loop goes on: a line, not the end of the
    input, that is blank, or that [json.loads] decodes, or on which it
    raises [JSONDecodeError]. *)
Definition goes_on (r : read_outcome) : Prop :=
  exists line,
    r = Returned line /\ line <> ""
    /\ (Str.strip line = ""
        \/ (exists v, json_loads (Str.strip line) = inr v)
        \/ invalid_json line).

(** ** [KeyCommand] and [KeySequenceCommand] *)

(** The attributes [add_parser_arguments] declares, lines 72-75 and
    90-96: [key] has [type=int], [--duration] has [type=float] and is
    [None] when absent, [key_sequence] collects the tokens as they are. *)
Record KeyArgs : Type := { key : Z; duration : option float }.
Record KeySequenceArgs : Type := { key_sequence : list string }.

(** [KeyCommand.run_with_client], lines 77-78. *)
Definition KeyCommand_run_with_client (args : KeyArgs) : M unit :=
  call (client_key (key args) (duration args)).

(** [list(map(int, tokens))]: the conversions in order, up to the first
    that raises. *)
Fixpoint map_int (tokens : list string) : M (list Z) :=
  match tokens with
  | [] => ret []
  | tok :: tokens' =>
      z <- py_int tok ;;
      zs <- map_int tokens' ;;
      ret (z :: zs)
  end.

(** [KeySequenceCommand.run_with_client], lines 98-99. *)
Definition KeySequenceCommand_run_with_client (args : KeySequenceArgs) : M unit :=
  codes <- map_int (key_sequence args) ;;
  call (client_key_sequence codes).

End WithLibrary.

End Hid.

(** * [video.py]: [VideoStreamCommand._build_stream_config] *)

Module Video.

(** The values the options and the configuration hold: [None], [bool],
    [int], [float] and [str]. *)
Inductive value : Type :=
| VNone
| VBool (b : bool)
| VInt (z : Z)
| VFloat (f : float)
| VStr (s : string).

(** [n == f] for an [int] and a [float]: the comparison is exact. *)
Definition int_eq_float (n : Z) (f : float) : bool :=
  match f with
  | S754_zero _ => n =? 0
  | S754_finite s m e =>
      let v := if s then Z.neg m else Z.pos m in
      if 0 <=? e then n =? v * 2 ^ e else n * 2 ^ (- e) =? v
  | _ => false
  end.

(** A [bool] is an [int]. *)
Definition as_int (v : value) : option Z :=
  match v with
  | VBool b => Some (Z.b2z b)
  | VInt z => Some z
  | _ => None
  end.

(** [a == b] *)
Definition py_eq (a b : value) : bool :=
  match a, b with
  | VNone, VNone => true
  | VStr s, VStr t => String.eqb s t
  | VFloat f, VFloat g => SFeqb f g
  | VFloat f, _ =>
      match as_int b with Some n => int_eq_float n f | None => false end
  | _, VFloat g =>
      match as_int a with Some n => int_eq_float n g | None => false end
  | _, _ =>
      match as_int a, as_int b with
      | Some n, Some m => n =? m
      | _, _ => false
      end
  end.

(** The [Namespace] the parser of [add_parser_arguments] produces, lines
    55-134: one attribute per argument, named by its [dest], typed by its
    [type], [choices] or [action]; [fps], [output_file] and [preset] are
    [None] when the option is absent. *)
Record Namespace : Type := {
  fps : option Z;
  format : string;
  output_file : option string;
  compression_quality : float;
  scale_factor : float;
  keyframe_interval : Z;
  profile : string;
  max_bitrate : Z;
  buffer_size : Z;
  no_b_frames : bool;
  realtime_optimization : bool;
  preset : option string
}.

Definition of_option {A} (inj : A -> value) (o : option A) : value :=
  match o with
  | Some a => inj a
  | None => VNone
  end.

(** [vars(args)]: the attributes by name. *)
Definition vars (args : Namespace) : list (string * value) :=
  [ ("fps", of_option VInt (fps args));
    ("format", VStr (format args));
    ("output_file", of_option VStr (output_file args));
    ("compression_quality", VFloat (compression_quality args));
    ("scale_factor", VFloat (scale_factor args));
    ("keyframe_interval", VInt (keyframe_interval args));
    ("profile", VStr (profile args));
    ("max_bitrate", VInt (max_bitrate args));
    ("buffer_size", VInt (buffer_size args));
    ("no_b_frames", VBool (no_b_frames args));
    ("realtime_optimization", VBool (realtime_optimization args));
    ("preset", of_option VStr (preset args)) ].

Fixpoint assoc {A} (name : string) (l : list (string * A)) : option A :=
  match l with
  | [] => None
  | (k, v) :: l' => if String.eqb k name then Some v else assoc name l'
  end.

(** [getattr(args, name)], [None] standing for [AttributeError]; and
    [hasattr(args, name)], which tells whether [getattr] raises. *)
Definition getattr (args : Namespace) (name : string) : option value :=
  assoc name (vars args).

Definition hasattr (args : Namespace) (name : string) : bool :=
  bool_decide (is_Some (getattr args name)).

(** The truth value of a [str] or [None]. *)
Definition truthy (o : option string) : bool :=
  match o with
  | Some s => negb (Str.is_empty s)
  | None => false
  end.

(** [config.get(key)] *)
Definition config_get (config : gmap string value) (key : string) : value :=
  default VNone (config !! key).

(** The float literals of the presets. *)
Definition f0_7 : float := float_of_decimal false 7 (-1).
Definition f0_8 : float := float_of_decimal false 8 (-1).
Definition f0_9 : float := float_of_decimal false 9 (-1).

(** [preset_configs], lines 178-209, each preset in the order of its
    items. *)
Definition preset_configs : gmap string (list (string * value)) :=
  list_to_map
    [ ("streaming",
       [ ("fps", VInt 30);
         ("keyframe_interval", VInt 30);
         ("h264_profile", VStr "baseline");
         ("max_bitrate", VInt 4000);
         ("buffer_size", VInt 2000);
         ("compression_quality", VFloat f0_8);
         ("allow_frame_reordering", VBool false);
         ("realtime_optimization", VBool true) ]);
      ("low-latency",
       [ ("fps", VInt 60);
         ("keyframe_interval", VInt 15);
         ("h264_profile", VStr "baseline");
         ("max_bitrate", VInt 6000);
         ("buffer_size", VInt 1000);
         ("compression_quality", VFloat f0_7);
         ("allow_frame_reordering", VBool false);
         ("realtime_optimization", VBool true) ]);
      ("high-quality",
       [ ("fps", VInt 30);
         ("keyframe_interval", VInt 60);
         ("h264_profile", VStr "high");
         ("max_bitrate", VInt 8000);
         ("buffer_size", VInt 4000);
         ("compression_quality", VFloat f0_9);
         ("allow_frame_reordering", VBool false);
         ("realtime_optimization", VBool true) ]) ].

(** The dictionary of lines 163-174. *)
Definition initial_config (args : Namespace) : gmap string value :=
  list_to_map
    [ ("fps", of_option VInt (fps args));
      ("format", VStr (format args));
      ("compression_quality", VFloat (compression_quality args));
      ("scale_factor", VFloat (scale_factor args));
      ("keyframe_interval", VInt (keyframe_interval args));
      ("h264_profile", VStr (profile args));
      ("max_bitrate", VInt (max_bitrate args));
      ("buffer_size", VInt (buffer_size args));
      ("allow_frame_reordering", VBool (negb (no_b_frames args)));
      ("realtime_optimization", VBool (realtime_optimization args)) ].

(** The condition of line 215:
    [not hasattr(args, name) or getattr(args, name) == config.get(key)]
    with [name = key.replace('_', '-')]. *)
Definition override_guard (args : Namespace) (config : gmap string value)
  (key : string) : bool :=
  let name := Str.replace "_" "-" key in
  negb (hasattr args name)
  || match getattr args name with
     | Some v => py_eq v (config_get config key)
     | None => false
     end.

(** The loop of lines 214-216 over the items of a preset. *)
Definition apply_preset (args : Namespace) (items : list (string * value))
  (config : gmap string value) : gmap string value :=
  fold_left
    (fun config '(key, v) =>
       if override_guard args config key then <[key := v]> config else config)
    items config.

(** [_build_stream_config], lines 161-218. *)
Definition _build_stream_config (args : Namespace) : gmap string value :=
  let config := initial_config args in
  if hasattr args "preset" && truthy (preset args) then
    match preset args ≫= (preset_configs !!.) with
    | Some items => apply_preset args items config
    | None => config
    end
  else config.

(** The keys of the presets that have an underscore: all but [fps]. *)
Definition hyphenated_keys : list string :=
  [ "keyframe_interval"; "h264_profile"; "max_bitrate"; "buffer_size";
    "compression_quality"; "allow_frame_reordering"; "realtime_optimization" ].

(** [str(n)] for an [int]: its decimal digits, after ["-"] when it is
    negative. *)
Definition str_of_int (n : Z) : string := NilZero.string_of_int (Z.to_int n).

(** The float literals of [_validate_args]. *)
Definition f0_0 : float := float_of_decimal false 0 0.
Definition f1_0 : float := float_of_decimal false 1 0.

(** [_validate_args], lines 220-235.  The comparisons of the two floats
    are those of binary64: each is false when an operand is not a
    number. *)
Definition _validate_args (args : Namespace) : M unit :=
  when ((keyframe_interval args <? 15) || (120 <? keyframe_interval args))
    (log WARNING
       ("Keyframe interval " ++ str_of_int (keyframe_interval args)
        ++ " may not be optimal. Recommended: 15-120 frames")%string
       None) ;;
  when ((max_bitrate args <? 1000) || (10000 <? max_bitrate args))
    (log WARNING
       ("Max bitrate " ++ str_of_int (max_bitrate args)
        ++ " kbps may not be optimal. Recommended: 1000-10000 kbps")%string
       None) ;;
  when (max_bitrate args <? buffer_size args)
    (log WARNING
       ("Buffer size " ++ str_of_int (buffer_size args)
        ++ " is larger than max bitrate " ++ str_of_int (max_bitrate args))%string
       None) ;;
  when (SFltb (compression_quality args) f0_0
        || SFltb f1_0 (compression_quality args))
    (raise (Exn ValueError "Compression quality must be between 0.0 and 1.0" None)) ;;
  when (SFleb (scale_factor args) f0_0 || SFltb f1_0 (scale_factor args))
    (raise (Exn ValueError "Scale factor must be between 0.0 and 1.0" None)).

(** The options of [add_parser_arguments], lines 55-134, as a command
    line gives them: the value of each option that takes one, converted
    by its [type], or [None] when the option is absent, and whether each
    flag is present. *)
Record Options : Type := {
  opt_fps : option Z;
  opt_format : option string;
  opt_output_file : option string;
  opt_compression_quality : option float;
  opt_scale_factor : option float;
  opt_keyframe_interval : option Z;
  opt_profile : option string;
  opt_max_bitrate : option Z;
  opt_buffer_size : option Z;
  opt_no_b_frames : bool;
  opt_realtime_optimization : bool;
  opt_preset : option string
}.

(** [action="store_true"]: [True] when the flag is present, the default
    when it is absent. *)
Definition store_true (dflt present : bool) : bool :=
  if present then true else dflt.

(** [choices]: a value that is given has to be one of them. *)
Definition in_choices (choices : list string) (given : option string) : bool :=
  match given with
  | Some s => existsb (String.eqb s) choices
  | None => true
  end.

Section WithVideoFormat.

(** [VideoFormat] of [idb.common.types] is not among the sources: its
    type, the value of its member [H264] and the table
    [_FORMAT_CHOICE_MAP] built from it at lines 18-20 are parameters. *)
Variable VideoFormat : Type.
Variable H264_value : string.
Variable _FORMAT_CHOICE_MAP : gmap string VideoFormat.

(** The namespace the parser of [add_parser_arguments] makes of the
    options, or [None] when a value is outside its [choices] and the
    parser exits. *)
Definition parse_args (o : Options) : option Namespace :=
  if in_choices (map fst (map_to_list _FORMAT_CHOICE_MAP)) (opt_format o)
     && in_choices ["baseline"; "main"; "high"] (opt_profile o)
     && in_choices ["streaming"; "low-latency"; "high-quality"] (opt_preset o)
  then
    Some {| fps := opt_fps o;
            format := default H264_value (opt_format o);
            output_file := opt_output_file o;
            compression_quality := default f0_8 (opt_compression_quality o);
            scale_factor := default f1_0 (opt_scale_factor o);
            keyframe_interval := default 30 (opt_keyframe_interval o);
            profile := default "baseline" (opt_profile o);
            max_bitrate := default 4000 (opt_max_bitrate o);
            buffer_size := default 2000 (opt_buffer_size o);
            no_b_frames := store_true true (opt_no_b_frames o);
            realtime_optimization := store_true true (opt_realtime_optimization o);
            preset := opt_preset o |}
  else None.

(** The keyword arguments of [client.stream_video], lines 141-155. *)
Record stream_video_call : Type := {
  kw_output_file : option string;
  kw_fps : option Z;
  kw_format : VideoFormat;
  kw_compression_quality : float;
  kw_scale_factor : float;
  kw_keyframe_interval : Z;
  kw_h264_profile : string;
  kw_max_bitrate : Z;
  kw_buffer_size : Z;
  kw_allow_frame_reordering : bool;
  kw_realtime_optimization : bool;
  kw_preset : value
}.

(** [VideoStreamCommand.run_with_client], lines 136-155, up to the call
    of [client.stream_video]: the call it makes, or the [KeyError] of
    the format table. *)
Definition VideoStreamCommand_stream_video (args : Namespace)
  : exn + stream_video_call :=
  let stream_config := _build_stream_config args in
  match _FORMAT_CHOICE_MAP !! format args with
  | None => inl (Exn KeyError (format args) None)
  | Some fmt =>
      inr {| kw_output_file := output_file args;
             kw_fps := fps args;
             kw_format := fmt;
             kw_compression_quality := compression_quality args;
             kw_scale_factor := scale_factor args;
             kw_keyframe_interval := keyframe_interval args;
             kw_h264_profile := profile args;
             kw_max_bitrate := max_bitrate args;
             kw_buffer_size := buffer_size args;
             kw_allow_frame_reordering := negb (no_b_frames args);
             kw_realtime_optimization := realtime_optimization args;
             kw_preset := default VNone (getattr args "preset") |}
  end.

(** The keyword arguments of a call under the keys that the
    configuration has for them. *)
Definition call_config (c : stream_video_call) : gmap string value :=
  list_to_map
    [ ("fps", of_option VInt (kw_fps c));
      ("compression_quality", VFloat (kw_compression_quality c));
      ("scale_factor", VFloat (kw_scale_factor c));
      ("keyframe_interval", VInt (kw_keyframe_interval c));
      ("h264_profile", VStr (kw_h264_profile c));
      ("max_bitrate", VInt (kw_max_bitrate c));
      ("buffer_size", VInt (kw_buffer_size c));
      ("allow_frame_reordering", VBool (kw_allow_frame_reordering c));
      ("realtime_optimization", VBool (kw_realtime_optimization c)) ].

End WithVideoFormat.

(** The three warnings of [_validate_args], each with its condition. *)
Definition keyframe_warning (args : Namespace) : list effect :=
  if (keyframe_interval args <? 15) || (120 <? keyframe_interval args)
  then [Log WARNING
          ("Keyframe interval " ++ str_of_int (keyframe_interval args)
           ++ " may not be optimal. Recommended: 15-120 frames")%string None]
  else [].

Definition bitrate_warning (args : Namespace) : list effect :=
  if (max_bitrate args <? 1000) || (10000 <? max_bitrate args)
  then [Log WARNING
          ("Max bitrate " ++ str_of_int (max_bitrate args)
           ++ " kbps may not be optimal. Recommended: 1000-10000 kbps")%string None]
  else [].

Definition buffer_warning (args : Namespace) : list effect :=
  if max_bitrate args <? buffer_size args
  then [Log WARNING
          ("Buffer size " ++ str_of_int (buffer_size args)
           ++ " is larger than max bitrate " ++ str_of_int (max_bitrate args))%string
          None]
  else [].

(** [config[key] = v] for each item in turn. *)
Definition assign (items : list (string * value)) (config : gmap string value)
  : gmap string value :=
  fold_left (fun config '(key, v) => <[key := v]> config) items config.

(** The keys of the configuration. *)
Definition config_keys : list string :=
  [ "fps"; "format"; "compression_quality"; "scale_factor";
    "keyframe_interval"; "h264_profile"; "max_bitrate"; "buffer_size";
    "allow_frame_reordering"; "realtime_optimization" ].

End Video.

(** * The swipe interpolator *)

Module Swipe.

Local Open Scope R_scope.

Definition distance (a b : R * R) : R :=
  sqrt ((fst b - fst a) * (fst b - fst a) + (snd b - snd a) * (snd b - snd a)).

(** [a + t * (b - a)] on both coordinates. *)
Definition lerp (a b : R * R) (t : R) : R * R :=
  (fst a + t * (fst b - fst a), snd a + t * (snd b - snd a)).




End Swipe.

(** * Reference decoders

    [json.loads], [float] and [int] are parameters of the embedding.  The
    decoders below instantiate them so that the bridge can be run on the
    text of a feed.  They decide decimal literals without digit grouping,
    and JSON text whose strings stay below code point 256; they put no
    limit on the number of digits of an integer. *)

Module Reference.

Definition is_digit (c : ascii) : bool :=
  let n := N_of_ascii c in ((48 <=? n) && (n <=? 57))%N.

Definition digit_of (c : ascii) : Z := Z.of_N (N_of_ascii c) - 48.

(** The digits at the head of [s]: their value after [acc], how many
    there are, and the rest of [s]. *)
Fixpoint digits (acc : Z) (count : nat) (s : string) : Z * nat * string :=
  match s with
  | String c s' =>
      if is_digit c then digits (10 * acc + digit_of c) (S count) s'
      else (acc, count, s)
  | EmptyString => (acc, count, s)
  end.

(** An optional sign at the head of [s]; [plus] tells whether ["+"] is
    allowed. *)
Definition sign (plus : bool) (s : string) : bool * string :=
  match s with
  | String "-" s' => (true, s')
  | String "+" s' => if plus then (false, s') else (false, s)
  | _ => (false, s)
  end.

(** An exponent part [e[+-]digits] at the head of [s], when there is
    one. *)
Definition exponent (s : string) : option (Z * string) :=
  match s with
  | String c s1 =>
      if Ascii.eqb c "e" || Ascii.eqb c "E" then
        let '(neg, s2) := sign true s1 in
        match digits 0 O s2 with
        | (_, O, _) => None
        | (e, _, s3) => Some (if neg then - e else e, s3)
        end
      else None
  | EmptyString => None
  end.

(** [float(s)] for a decimal literal: [[sign] digits [. digits]
    [exponent]] with a digit before or after the point, between
    whitespace. *)
Definition float_of_str (s : string) : option float :=
  let '(neg, s1) := sign true (Str.strip s) in
  let '(ip, ni, s2) := digits 0 O s1 in
  let '(m, nf, s3) :=
    match s2 with
    | String "." s2' => digits ip O s2'
    | _ => (ip, O, s2)
    end in
  match (ni + nf)%nat with
  | O => None
  | _ =>
      let '(e, s4) := match exponent s3 with
                      | Some r => r
                      | None => (0, s3)
                      end in
      match s4 with
      | EmptyString => Some (float_of_decimal neg m (e - Z.of_nat nf))
      | _ => None
      end
  end.

(** [int(s)] for a decimal literal [[sign] digits] between whitespace. *)
Definition int_of_str (s : string) : option Z :=
  let '(neg, s1) := sign true (Str.strip s) in
  match digits 0 O s1 with
  | (_, O, _) => None
  | (n, _, EmptyString) => Some (if neg then - n else n)
  | _ => None
  end.

(** The whitespace of JSON: space, tab, line feed, carriage return. *)
Definition is_ws (c : ascii) : bool :=
  let n := N_of_ascii c in ((n =? 32) || (n =? 9) || (n =? 10) || (n =? 13))%N.

Fixpoint skip_ws (s : string) : string :=
  match s with
  | String c s' => if is_ws c then skip_ws s' else s
  | EmptyString => s
  end.

(** A JSON number at the head of [s]: an [int] when it has neither a
    fraction nor an exponent, a [float] otherwise. *)
Definition number (s : string) : option (json * string) :=
  let '(neg, s1) := sign false s in
  let int_part :=
    match s1 with
    | String "0" s2 => Some (0, s2)
    | _ => match digits 0 O s1 with
           | (_, O, _) => None
           | (n, _, s2) => Some (n, s2)
           end
    end in
  match int_part with
  | None => None
  | Some (n, s2) =>
      let '(m, nf, s3) :=
        match s2 with
        | String "." s2' =>
            match digits n O s2' with
            | (_, O, _) => (n, O, s2)
            | r => r
            end
        | _ => (n, O, s2)
        end in
      match exponent s3, nf with
      | None, O => Some (JInt (if neg then - n else n), s3)
      | None, _ => Some (JFloat (float_of_decimal neg m (- Z.of_nat nf)), s3)
      | Some (e, s4), _ => Some (JFloat (float_of_decimal neg m (e - Z.of_nat nf)), s4)
      end
  end.

Definition hex_of (c : ascii) : option N :=
  let n := N_of_ascii c in
  if ((48 <=? n) && (n <=? 57))%N then Some (n - 48)%N
  else if ((65 <=? n) && (n <=? 70))%N then Some (n - 55)%N
  else if ((97 <=? n) && (n <=? 102))%N then Some (n - 87)%N
  else None.

(** The characters of a JSON string after its opening quote, up to the
    closing one; control characters are refused, as are the [\u] escapes
    of code points from 256 on. *)
Fixpoint string_body (s : string) : option (string * string) :=
  match s with
  | EmptyString => None
  | String c s1 =>
      if Ascii.eqb c (ascii_of_nat 34) then Some (EmptyString, s1)
      else if (N_of_ascii c <? 32)%N then None
      else if Ascii.eqb c (ascii_of_nat 92) then
        match s1 with
        | String "u" (String "0" (String "0" (String h (String l s2)))) =>
            match hex_of h, hex_of l, string_body s2 with
            | Some a, Some b, Some (r, rest) =>
                Some (String (ascii_of_N (16 * a + b)) r, rest)
            | _, _, _ => None
            end
        | String e s2 =>
            let decoded :=
              if Ascii.eqb e (ascii_of_nat 34) then Some e
              else if Ascii.eqb e (ascii_of_nat 92) then Some e
              else if Ascii.eqb e "/" then Some e
              else if Ascii.eqb e "b" then Some (ascii_of_nat 8)
              else if Ascii.eqb e "f" then Some (ascii_of_nat 12)
              else if Ascii.eqb e "n" then Some (ascii_of_nat 10)
              else if Ascii.eqb e "r" then Some (ascii_of_nat 13)
              else if Ascii.eqb e "t" then Some (ascii_of_nat 9)
              else None in
            match decoded, string_body s2 with
            | Some d, Some (r, rest) => Some (String d r, rest)
            | _, _ => None
            end
        | EmptyString => None
        end
      else
        match string_body s1 with
        | Some (r, rest) => Some (String c r, rest)
        | None => None
        end
  end.

(** [lit] at the head of [s]. *)
Definition literal (lit : string) (v : json) (s : string) : option (json * string) :=
  if String.prefix lit s
  then Some (v, String.substring (String.length lit) (String.length s) s)
  else None.

(** A JSON value at the head of [s]; [members] and [elements] read what
    follows the opening bracket of an object and of an array, after the
    whitespace.  A key that occurs twice keeps its last value. *)
Fixpoint value (fuel : nat) (s : string) {struct fuel} : option (json * string) :=
  match fuel with
  | O => None
  | S fuel' =>
      match s with
      | String "{" s1 =>
          match skip_ws s1 with
          | String "}" s2 => Some (JDict ∅, s2)
          | s2 => members fuel' ∅ s2
          end
      | String "[" s1 =>
          match skip_ws s1 with
          | String "]" s2 => Some (JList [], s2)
          | s2 => elements fuel' [] s2
          end
      | String "n" _ => literal "null" JNull s
      | String "t" _ => literal "true" (JBool true) s
      | String "f" _ => literal "false" (JBool false) s
      | String "N" _ => literal "NaN" (JFloat S754_nan) s
      | String "I" _ => literal "Infinity" (JFloat (S754_infinity false)) s
      | String c s1 =>
          if Ascii.eqb c (ascii_of_nat 34) then
            match string_body s1 with
            | Some (str, rest) => Some (JStr str, rest)
            | None => None
            end
          else
            match literal "-Infinity" (JFloat (S754_infinity true)) s with
            | Some r => Some r
            | None => number s
            end
      | EmptyString => None
      end
  end
with members (fuel : nat) (acc : gmap string json) (s : string) {struct fuel}
  : option (json * string) :=
  match fuel with
  | O => None
  | S fuel' =>
      match s with
      | String q s1 =>
          if Ascii.eqb q (ascii_of_nat 34) then
            match string_body s1 with
            | Some (k, s2) =>
                match skip_ws s2 with
                | String ":" s3 =>
                    match value fuel' (skip_ws s3) with
                    | Some (v, s4) =>
                        match skip_ws s4 with
                        | String "}" s5 => Some (JDict (<[k := v]> acc), s5)
                        | String "," s5 => members fuel' (<[k := v]> acc) (skip_ws s5)
                        | _ => None
                        end
                    | None => None
                    end
                | _ => None
                end
            | None => None
            end
          else None
      | EmptyString => None
      end
  end
with elements (fuel : nat) (acc : list json) (s : string) {struct fuel}
  : option (json * string) :=
  match fuel with
  | O => None
  | S fuel' =>
      match value fuel' s with
      | Some (v, s1) =>
          match skip_ws s1 with
          | String "]" s2 => Some (JList (acc ++ [v]), s2)
          | String "," s2 => elements fuel' (acc ++ [v]) (skip_ws s2)
          | _ => None
          end
      | None => None
      end
  end.

(** [json.loads(s)]: one value between whitespace, and nothing else. *)
Definition json_loads (s : string) : exn + json :=
  match value (2 * String.length s + 2) (skip_ws s) with
  | Some (v, rest) =>
      match skip_ws rest with
      | EmptyString => inr v
      | _ => inl (Exn JSONDecodeError "Extra data" None)
      end
  | None => inl (Exn JSONDecodeError "Expecting value" None)
  end.

(** Text with ['] where the feed has the double quote. *)
Definition dq (s : string) : string :=
  Str.replace "'" (ascii_of_nat 34) s.

(** The lines [sys.stdin.readline] returns for a text, each with its line
    feed; a text that does not end in one has a last line without. *)
Fixpoint readlines (cur : string) (text : string) : list string :=
  match text with
  | EmptyString => if Str.is_empty cur then [] else [cur]
  | String c text' =>
      if Ascii.eqb c (ascii_of_nat 10)
      then (cur ++ String c EmptyString)%string :: readlines EmptyString text'
      else readlines (cur ++ String c EmptyString)%string text'
  end.

End Reference.


(** * Sample inputs *)

Module Samples.

Import Reference.

(** The line feed that ends a line. *)
Definition LF : string := String (ascii_of_nat 10) EmptyString.

(** [float(n)] for a small integer [n]. *)
Definition fl (n : Z) : float := binary_normalize prec emax n 0 false.

(** [bridge text]: the generator run on the feed [text], to its end. *)
Definition bridge (text : string) : M Hid.bridge_state :=
  Hid.read_touch_events_from_stdin json_loads float_of_str
    (Hid.finite_feed (readlines EmptyString text)).

Definition start_1_2 : string := dq "{'type':'touch_start','x':1,'y':2}" ++ LF.
Definition move_3_4 : string := dq "{'type':'touch_move','x':3,'y':4}" ++ LF.
Definition end_5_6 : string := dq "{'type':'touch_end','x':5,'y':6}" ++ LF.
Definition not_json : string := "not json" ++ LF.
Definition start_null : string := dq "{'type':'touch_start','x':null,'y':2}" ++ LF.
Definition end_str_bool : string := dq "{'type':'touch_end','x':'1.5','y':true}" ++ LF.
Definition end_str_list : string := dq "{'type':'touch_end','x':'abc','y':[]}" ++ LF.
Definition blank : string := "  " ++ LF.

Definition press (px py : float) (direction : HIDDirection) : HIDEvent :=
  HIDPress (HIDTouch {| x := px; y := py |}) direction.

Definition low_latency_args : Video.Namespace :=
  {| Video.fps := Some 24;
     Video.format := "h264";
     Video.output_file := None;
     Video.compression_quality := Video.f0_9;
     Video.scale_factor := fl 1;
     Video.keyframe_interval := 99;
     Video.profile := "main";
     Video.max_bitrate := 9000;
     Video.buffer_size := 500;
     Video.no_b_frames := false;
     Video.realtime_optimization := false;
     Video.preset := Some "low-latency" |}.

End Samples.

Module MoreSamples.

Import Reference Samples.

(** The carriage return. *)
Definition CR : string := String (ascii_of_nat 13) EmptyString.

Definition end_1_2_text : string := dq "{'type':'touch_end','x':1,'y':2}".

Definition end_1_2 : gmap string json :=
  <["type" := JStr "touch_end"]> (<["x" := JInt 1]> (<["y" := JInt 2]> ∅)).

Definition swipe_null_2 : gmap string json :=
  <["type" := JStr "swipe"]> (<["x" := JNull]> (<["y" := JInt 2]> ∅)).

(** The deepest nesting of brackets in [s], from the depth [depth] on,
    when [most] is the deepest so far. *)
Fixpoint nesting (depth most : nat) (s : string) : nat :=
  match s with
  | EmptyString => most
  | String c s' =>
      if Ascii.eqb c "[" || Ascii.eqb c "{"
      then nesting (S depth) (Nat.max most (S depth)) s'
      else if Ascii.eqb c "]" || Ascii.eqb c "}"
           then nesting (Nat.pred depth) most s'
           else nesting depth most s'
  end.

(** A decoder that raises [RecursionError] on text nested deeper than
    [limit], as [json.loads] does at the recursion limit of the
    interpreter. *)
Definition depth_limited_loads (limit : nat) (s : string) : exn + json :=
  if (limit <? nesting O O s)%nat
  then inl (Exn RecursionError "maximum recursion depth exceeded" None)
  else json_loads s.

Definition nested_3 : string := "[[[1]]]" ++ LF.

(** A table of formats. *)
Definition formats : gmap string string :=
  <["h264" := "H264"]> (<["rbga" := "RBGA"]> ∅).

(** The command line with no option. *)
Definition no_options : Video.Options :=
  {| Video.opt_fps := None;
     Video.opt_format := None;
     Video.opt_output_file := None;
     Video.opt_compression_quality := None;
     Video.opt_scale_factor := None;
     Video.opt_keyframe_interval := None;
     Video.opt_profile := None;
     Video.opt_max_bitrate := None;
     Video.opt_buffer_size := None;
     Video.opt_no_b_frames := false;
     Video.opt_realtime_optimization := false;
     Video.opt_preset := None |}.

(** A namespace whose two floats are not numbers and whose preset is not
    in the table. *)
Definition nan_args : Video.Namespace :=
  {| Video.fps := None;
     Video.format := "h264";
     Video.output_file := None;
     Video.compression_quality := S754_nan;
     Video.scale_factor := S754_nan;
     Video.keyframe_interval := 5;
     Video.profile := "main";
     Video.max_bitrate := 20000;
     Video.buffer_size := 500;
     Video.no_b_frames := true;
     Video.realtime_optimization := true;
     Video.preset := Some "ultra" |}.

End MoreSamples.

(** * Properties of the stream bridge *)

Section Bridge.

Variable json_loads : string -> exn + json.
Variable float_of_str : string -> option float.

Local Abbreviation py_float := (Hid.py_float float_of_str).
Local Abbreviation convert_touch_event_to_hid :=
  (Hid.convert_touch_event_to_hid float_of_str).
Local Abbreviation loop_body := (Hid.loop_body json_loads float_of_str).
Local Abbreviation while_true := (Hid.while_true json_loads float_of_str).
Local Abbreviation read_touch_events_from_stdin :=
  (Hid.read_touch_events_from_stdin json_loads float_of_str).
Local Abbreviation iteration := (Hid.iteration json_loads float_of_str).

(** [float] and the conversion have no effect: they return or raise. *)
Lemma py_float_pure v :
  (exists f, py_float v = ([], Normal f)) \/ (exists e, py_float v = ([], Raised e)).
Proof.
  destruct v as [ | b | z | f | s | l | d ]; simpl; eauto.
  - destruct (float_of_int (Z.b2z b)); simpl; eauto.
  - destruct (float_of_int z); simpl; eauto.
  - destruct (float_of_str s); eauto.
Qed.

Lemma all_in_pure keys v :
  (exists b, all_in keys v = ([], Normal b)) \/ (exists e, all_in keys v = ([], Raised e)).
Proof.
  induction keys as [ | k keys IH ]; simpl; eauto.
  destruct v; simpl; eauto;
    match goal with
    | |- context [ if ?c then _ else _ ] => destruct c; simpl; eauto
    end;
    destruct IH as [[b ->] | [e ->]]; eauto.
Qed.

Lemma all_in_dict keys d :
  all_in keys (JDict d)
  = ([], Normal (forallb (fun k => bool_decide (is_Some (d !! k))) keys)).
Proof.
  induction keys as [ | k keys IH ]; simpl; [ reflexivity | ].
  destruct (bool_decide (is_Some (d !! k))); simpl; [ | reflexivity ].
  rewrite IH. reflexivity.
Qed.

Lemma direction_map_lookup ty dir :
  Hid.direction_map !! ty = Some dir <-> Hid.touch_type ty dir.
Proof.
  unfold Hid.direction_map. split.
  - intros H.
    destruct (decide (ty = "touch_start")) as [-> | n1].
    { rewrite lookup_insert_eq in H. inversion H. constructor. }
    rewrite lookup_insert_ne in H by congruence.
    destruct (decide (ty = "touch_move")) as [-> | n2].
    { rewrite lookup_insert_eq in H. inversion H. constructor. }
    rewrite lookup_insert_ne in H by congruence.
    destruct (decide (ty = "touch_end")) as [-> | n3].
    { rewrite lookup_insert_eq in H. inversion H. constructor. }
    rewrite lookup_insert_ne in H by congruence.
    rewrite lookup_empty in H. discriminate.
  - intros []; reflexivity.
Qed.


(** What the conversion returns, it returns for an object with the three
    fields, a recognised [type] and coordinates that [float] accepts. *)
Lemma convert_inv v t ev :
  convert_touch_event_to_hid v = (t, Normal ev) ->
  exists d ty dir vx vy fx fy,
    v = JDict d /\ d !! "type" = Some (JStr ty) /\ Hid.touch_type ty dir
    /\ d !! "x" = Some vx /\ d !! "y" = Some vy
    /\ py_float vx = ([], Normal fx) /\ py_float vy = ([], Normal fy)
    /\ t = [] /\ ev = HIDPress (HIDTouch {| x := fx; y := fy |}) dir.
Proof.
  unfold Hid.convert_touch_event_to_hid.
  destruct v as [ | b | z | f | s | l | d ]; simpl; try discriminate.
  - repeat match goal with
           | |- context [ if ?c then _ else _ ] => destruct c; simpl
           end; discriminate.
  - repeat match goal with
           | |- context [ if ?c then _ else _ ] => destruct c; simpl
           end; discriminate.
  - destruct (d !! "type") as [ety | ] eqn:Hty; simpl; [ | discriminate ].
    destruct (d !! "x") as [vx | ] eqn:Hx; simpl; [ | discriminate ].
    destruct (d !! "y") as [vy | ] eqn:Hy; simpl; [ | discriminate ].
    destruct (py_float_pure vx) as [[fx Hfx] | [e Hfx]]; rewrite Hfx; simpl;
      [ | discriminate ].
    destruct (py_float_pure vy) as [[fy Hfy] | [e Hfy]]; rewrite Hfy; simpl;
      [ | discriminate ].
    destruct ety as [ | b | z | f | ty | l | d' ]; simpl; try discriminate.
    destruct (Hid.direction_map !! ty) as [dir | ] eqn:Hdir; simpl;
      [ | discriminate ].
    intros H. inversion H; subst.
    exists d, ty, dir, vx, vy, fx, fy.
    apply direction_map_lookup in Hdir. auto 10.
Qed.

Lemma convert_pure v :
  (exists ev, convert_touch_event_to_hid v = ([], Normal ev))
  \/ (exists e, convert_touch_event_to_hid v = ([], Raised e)).
Proof.
  unfold Hid.convert_touch_event_to_hid.
  destruct (all_in_pure ["type"; "x"; "y"] v) as [[b ->] | [e ->]]; simpl; eauto.
  destruct b; simpl; eauto.
  destruct v as [ | b | z | f | s | l | d ]; simpl; eauto.
  destruct (d !! "x") as [vx | ]; simpl; eauto.
  destruct (py_float_pure vx) as [[fx ->] | [e ->]]; simpl; eauto.
  destruct (d !! "y") as [vy | ]; simpl; eauto.
  destruct (py_float_pure vy) as [[fy ->] | [e ->]]; simpl; eauto.
  destruct (d !! "type") as [ety | ]; simpl; eauto.
  destruct ety as [ | b | z | f | ty | l | d' ]; simpl; eauto.
  destruct (Hid.direction_map !! ty); simpl; eauto.
Qed.

Lemma convert_ok d ty dir vx vy fx fy :
  d !! "type" = Some (JStr ty) -> Hid.touch_type ty dir ->
  d !! "x" = Some vx -> d !! "y" = Some vy ->
  py_float vx = ([], Normal fx) -> py_float vy = ([], Normal fy) ->
  convert_touch_event_to_hid (JDict d)
  = ([], Normal (HIDPress (HIDTouch {| x := fx; y := fy |}) dir)).
Proof.
  intros Hty Hdir Hx Hy Hfx Hfy. apply direction_map_lookup in Hdir.
  unfold Hid.convert_touch_event_to_hid. simpl.
  rewrite Hty, Hx, Hy. simpl. rewrite Hfx. simpl. rewrite Hfy. simpl.
  rewrite Hdir. reflexivity.
Qed.

(** A value that is the text of no touch event makes the conversion
    raise. *)
Lemma convert_raises v :
  (forall t ev, convert_touch_event_to_hid v <> (t, Normal ev)) ->
  exists e, convert_touch_event_to_hid v = ([], Raised e).
Proof.
  intros H. destruct (convert_pure v) as [[ev Hev] | He]; [ | exact He ].
  exfalso. exact (H _ _ Hev).
Qed.


(** ** One iteration of the loop *)

Lemma strip_nonempty line : Str.strip line <> "" -> line <> "".
Proof. intros H ->. apply H. reflexivity. Qed.

Lemma is_empty_false s : s <> "" -> Str.is_empty s = false.
Proof. destruct s; [ congruence | reflexivity ]. Qed.

Lemma isinstance_Exception e : isinstance e Exception = true.
Proof. reflexivity. Qed.

#[local] Arguments isinstance : simpl never.

Lemma loop_body_eof :
  loop_body (Hid.Returned "")
  = ([Log INFO "Received EOF, ending stream" None], Broke).
Proof. reflexivity. Qed.

Lemma loop_body_read_fault e :
  loop_body (Hid.Raises e) = ([Log ERROR "Error reading stdin: " (Some e)], Broke).
Proof. reflexivity. Qed.

Lemma loop_body_blank line :
  line <> "" -> Str.strip line = "" -> loop_body (Hid.Returned line) = ([], Continued).
Proof.
  intros Hne Hs. unfold Hid.loop_body. simpl.
  rewrite (is_empty_false _ Hne). simpl. rewrite Hs. reflexivity.
Qed.

Lemma loop_body_invalid_json line e :
  Str.strip line <> "" ->
  json_loads (Str.strip line) = inl e -> isinstance e JSONDecodeError = true ->
  loop_body (Hid.Returned line) = ([Log WARNING "Invalid JSON: " (Some e)], Continued).
Proof.
  intros Hs Hl Hi. unfold Hid.loop_body. simpl.
  rewrite (is_empty_false _ (strip_nonempty _ Hs)). simpl.
  rewrite (is_empty_false _ Hs). simpl. rewrite Hl. simpl. rewrite Hi.
  simpl; rewrite ?isinstance_Exception; reflexivity.
Qed.

Lemma loop_body_loads_raises line e :
  Str.strip line <> "" ->
  json_loads (Str.strip line) = inl e -> isinstance e JSONDecodeError = false ->
  loop_body (Hid.Returned line) = ([Log ERROR "Error reading stdin: " (Some e)], Broke).
Proof.
  intros Hs Hl Hi. unfold Hid.loop_body. simpl.
  rewrite (is_empty_false _ (strip_nonempty _ Hs)). simpl.
  rewrite (is_empty_false _ Hs). simpl. rewrite Hl. simpl. rewrite Hi.
  simpl; rewrite ?isinstance_Exception; reflexivity.
Qed.

Lemma loop_body_event line v ev :
  Hid.decodes json_loads line v ->
  convert_touch_event_to_hid v = ([], Normal ev) ->
  loop_body (Hid.Returned line) = ([Yield ev], Normal tt).
Proof.
  intros [Hs Hl] Hc. unfold Hid.loop_body. simpl.
  rewrite (is_empty_false _ (strip_nonempty _ Hs)). simpl.
  rewrite (is_empty_false _ Hs). simpl. rewrite Hl. simpl. rewrite Hc.
  simpl; rewrite ?isinstance_Exception; reflexivity.
Qed.

Lemma loop_body_convert_raises line v e :
  Hid.decodes json_loads line v ->
  convert_touch_event_to_hid v = ([], Raised e) ->
  loop_body (Hid.Returned line)
  = ([Log WARNING "Failed to convert event: " (Some e)], Continued).
Proof.
  intros [Hs Hl] Hc. unfold Hid.loop_body. simpl.
  rewrite (is_empty_false _ (strip_nonempty _ Hs)). simpl.
  rewrite (is_empty_false _ Hs). simpl. rewrite Hl. simpl. rewrite Hc.
  simpl; rewrite ?isinstance_Exception; reflexivity.
Qed.

Lemma loop_body_iteration r :
  exists t o, loop_body r = (t, o) /\ iteration r t o.
Proof.
  destruct r as [line | e].
  - destruct (decide (line = "")) as [-> | Hne].
    { eexists _, _. split; [ apply loop_body_eof | constructor ]. }
    destruct (decide (Str.strip line = "")) as [Hs | Hs].
    { eexists _, _. split; [ apply loop_body_blank; assumption | ].
      constructor; assumption. }
    destruct (json_loads (Str.strip line)) as [e | v] eqn:Hl.
    + destruct (isinstance e JSONDecodeError) eqn:Hi.
      * eexists _, _. split; [ eapply loop_body_invalid_json; eassumption | ].
        econstructor; eassumption.
      * eexists _, _. split; [ eapply loop_body_loads_raises; eassumption | ].
        econstructor; eassumption.
    + assert (Hd : Hid.decodes json_loads line v) by (split; assumption).
      destruct (convert_pure v) as [[ev Hc] | [e Hc]].
      * eexists _, _. split; [ eapply loop_body_event; eassumption | ].
        econstructor; eassumption.
      * eexists _, _. split; [ eapply loop_body_convert_raises; eassumption | ].
        econstructor; eassumption.
  - eexists _, _. split; [ apply loop_body_read_fault | constructor ].
Qed.

(** ** The loop *)

Lemma while_true_cons r stdin :
  while_true (r :: stdin)
  = match loop_body r with
    | (t, Broke) => (t, Normal Hid.Closed)
    | (t, Raised e) => (t, Raised e)
    | (t, _) => let '(t', s) := while_true stdin in (t ++ t', s)
    end.
Proof. simpl. destruct (loop_body r) as [t [ [] | e | | ]]; reflexivity. Qed.

(** The loop returns: no exception leaves the generator. *)
Lemma while_true_returns stdin :
  exists t s, while_true stdin = (t, Normal s).
Proof.
  induction stdin as [ | r stdin [t' [s' IH]] ]; [ eexists _, _; reflexivity | ].
  rewrite while_true_cons.
  destruct (loop_body_iteration r) as (t & o & -> & Hit).
  rewrite IH. destruct Hit; eauto.
Qed.

(** Reads after the one that closed the stream are not performed. *)
Lemma while_true_app pre post :
  while_true (pre ++ post)
  = match while_true pre with
    | (t, Normal Hid.Reading) => let '(t', s) := while_true post in (t ++ t', s)
    | done => done
    end.
Proof.
  induction pre as [ | r pre IH ].
  - simpl. destruct (while_true post). reflexivity.
  - rewrite <- app_comm_cons, !while_true_cons.
    destruct (loop_body_iteration r) as (t & o & -> & Hit).
    rewrite IH.
    destruct (while_true_returns pre) as (t1 & s1 & ->).
    destruct (while_true post) as [t2 s2].
    destruct Hit; try reflexivity; destruct s1; simpl; rewrite ?app_assoc;
      reflexivity.
Qed.


Lemma events_app t t' : events (t ++ t') = events t ++ events t'.
Proof. apply omap_app. Qed.

Lemma read_touch_events_from_stdin_eq stdin :
  read_touch_events_from_stdin stdin
  = let '(t, s) := while_true stdin in
    (Log INFO "Starting touch event stream from stdin..." None :: t, s).
Proof.
  unfold Hid.read_touch_events_from_stdin. simpl.
  destruct (while_true stdin). reflexivity.
Qed.

Lemma read_returns stdin :
  exists t s, read_touch_events_from_stdin stdin = (t, Normal s).
Proof.
  rewrite read_touch_events_from_stdin_eq.
  destruct (while_true_returns stdin) as (t & s & ->). eauto.
Qed.

Lemma read_app pre post :
  read_touch_events_from_stdin (pre ++ post)
  = match read_touch_events_from_stdin pre with
    | (t, Normal Hid.Reading) => let '(t', s) := while_true post in (t ++ t', s)
    | done => done
    end.
Proof.
  rewrite !read_touch_events_from_stdin_eq, while_true_app.
  destruct (while_true_returns pre) as (t & s & ->).
  destruct s; [ | reflexivity ].
  destruct (while_true post). reflexivity.
Qed.

(** An iteration that ends by [break] closes the stream where it stands. *)
Lemma read_break pre r post t0 :
  loop_body r = (t0, Broke) ->
  read_touch_events_from_stdin (pre ++ r :: post)
  = match read_touch_events_from_stdin pre with
    | (t, Normal Hid.Reading) => (t ++ t0, Normal Hid.Closed)
    | done => done
    end.
Proof.
  intros Hb. rewrite read_app, while_true_cons, Hb. reflexivity.
Qed.

(** An iteration that goes on to the next one adds its trace to that of
    the rest. *)
Lemma while_true_next r stdin t0 o :
  loop_body r = (t0, o) -> o = Normal tt \/ o = Continued ->
  while_true (r :: stdin) = let '(t', s) := while_true stdin in (t0 ++ t', s).
Proof.
  intros Hb Ho. rewrite while_true_cons, Hb. destruct Ho as [-> | ->]; reflexivity.
Qed.

Lemma all_space_strip s : Str.all_space s = true -> Str.strip s = "".
Proof.
  unfold Str.strip. induction s as [ | c s IH ]; simpl; [ reflexivity | ].
  destruct (Str.isspace c); simpl; [ exact IH | discriminate ].
Qed.

Lemma touch_line_event line ev :
  Hid.touch_line json_loads float_of_str line ev ->
  loop_body (Hid.Returned line) = ([Yield ev], Normal tt).
Proof.
  intros (dir & vx & vy & fx & fy & (d & ty & Hd & Hty & Hdir & Hx & Hy) & Hfx & Hfy & ->).
  eapply loop_body_event; [ exact Hd | ].
  eapply convert_ok; eassumption.
Qed.

Lemma malformed_line_warning line :
  Hid.malformed json_loads line ->
  exists msg e, loop_body (Hid.Returned line) = ([Log WARNING msg (Some e)], Continued).
Proof.
  intros [Hs (e & Hl & Hi) | v Hd Hv | v Hd Hv].
  - eexists _, _. eapply loop_body_invalid_json; eassumption.
  - destruct (convert_raises v) as [e He].
    + intros t ev Hc.
      destruct (convert_inv _ _ _ Hc) as (d & ty & dir & vx & vy & fx & fy & -> & Hty & _ & Hx & Hy & _).
      destruct (Hv d eq_refl) as [H | [H | H]]; congruence.
    + eexists _, _. eapply loop_body_convert_raises; eassumption.
  - destruct (convert_raises v) as [e He].
    + intros t ev Hc.
      destruct (convert_inv _ _ _ Hc) as (d & ty & dir & vx & vy & fx & fy & -> & Hty & Hdir & _).
      destruct Hv as (d' & ty' & Heq & Hty' & Hno). inversion Heq; subst d'.
      rewrite Hty in Hty'. inversion Hty'; subst ty'.
      exact (Hno ty dir eq_refl Hdir).
    + eexists _, _. eapply loop_body_convert_raises; eassumption.
Qed.

(** C3: every event the stream bridge yields, whatever the reads give, is
    a press; it never yields a delay. *)
Theorem stream_yields_only_press stdin :
  Forall (fun ev => exists action direction, ev = HIDPress action direction)
         (events (fst (read_touch_events_from_stdin stdin))).
Proof.
  rewrite read_touch_events_from_stdin_eq.
  assert (H : Forall (fun ev => exists action direction, ev = HIDPress action direction)
                     (events (fst (while_true stdin)))).
  { induction stdin as [ | r stdin IH ]; [ constructor | ].
    rewrite while_true_cons.
    destruct (loop_body_iteration r) as (t & o & -> & Hit).
    destruct (while_true stdin) as [t' s]. simpl in IH.
    destruct Hit as [ | | | | | line v ev Hd Hc | ]; simpl;
      try assumption; try constructor.
    - destruct (convert_inv _ _ _ Hc) as (d & ty & dir & vx & vy & fx & fy & _ & _ & _ & _ & _ & _ & _ & _ & ->).
      eauto.
    - exact IH. }
  destruct (while_true stdin) as [t s]. exact H.
Qed.

(** C4: when a read returns the empty string, the end of the input, a
    bridge that is still reading logs one informational record, yields
    nothing, and returns: the generator is closed, no exception leaves it
    and no later read is performed. *)
Theorem end_of_input_closes pre post :
  read_touch_events_from_stdin (pre ++ Hid.Returned "" :: post)
  = match read_touch_events_from_stdin pre with
    | (t, Normal Hid.Reading) =>
        (t ++ [Log INFO "Received EOF, ending stream" None], Normal Hid.Closed)
    | done => done
    end
  /\ snd (read_touch_events_from_stdin (pre ++ Hid.Returned "" :: post))
     = Normal Hid.Closed.
Proof.
  assert (H := read_break pre (Hid.Returned "") post _ loop_body_eof).
  split; [ exact H | ].
  rewrite H. destruct (read_returns pre) as (t & s & ->).
  destruct s; reflexivity.
Qed.

Lemma errors_app t t' : errors (t ++ t') = errors t ++ errors t'.
Proof. apply omap_app. Qed.

Lemma goes_on_next r :
  Hid.goes_on json_loads r ->
  exists t o,
    loop_body r = (t, o) /\ (o = Normal tt \/ o = Continued) /\ errors t = [].
Proof.
  intros (line & -> & Hne & H).
  destruct (loop_body_iteration (Hid.Returned line)) as (t & o & E & Hit).
  exists t, o. split; [ exact E | ].
  inversion Hit; subst; auto; exfalso;
    [ congruence
    | destruct H as [H | [[v H] | (e' & H & Hi)]]; congruence ].
Qed.

(** Reads after which the loop goes on leave the generator reading, and
    log no error. *)
Lemma while_true_goes_on pre :
  Forall (Hid.goes_on json_loads) pre ->
  exists t, while_true pre = (t, Normal Hid.Reading) /\ errors t = [].
Proof.
  induction 1 as [ | r pre Hr _ (t' & IH & He') ].
  - exists []. split; reflexivity.
  - destruct (goes_on_next r Hr) as (t & o & E & Ho & He).
    exists (t ++ t'). rewrite (while_true_next _ pre _ _ E Ho), IH.
    split; [ reflexivity | ]. rewrite errors_app, He, He'. reflexivity.
Qed.

(** C5: when a read raises, a bridge that is still reading logs the
    exception once, as an error, yields nothing, and returns: the
    generator is closed, the exception does not leave it and no later
    read is performed.  The bridge is still reading at its first read,
    and after any reads that are lines, blank or not, on which
    [json.loads] returns or raises [JSONDecodeError]: the record of the
    fault is then the last of the trace and its only error. *)
Theorem read_fault_closes e pre post :
  read_touch_events_from_stdin (pre ++ Hid.Raises e :: post)
  = match read_touch_events_from_stdin pre with
    | (t, Normal Hid.Reading) =>
        (t ++ [Log ERROR "Error reading stdin: " (Some e)], Normal Hid.Closed)
    | done => done
    end
  /\ snd (read_touch_events_from_stdin (pre ++ Hid.Raises e :: post))
     = Normal Hid.Closed
  /\ read_touch_events_from_stdin (Hid.Raises e :: post)
     = ([ Log INFO "Starting touch event stream from stdin..." None;
          Log ERROR "Error reading stdin: " (Some e) ],
        Normal Hid.Closed)
  /\ (Forall (Hid.goes_on json_loads) pre ->
      exists t,
        read_touch_events_from_stdin pre = (t, Normal Hid.Reading)
        /\ read_touch_events_from_stdin (pre ++ Hid.Raises e :: post)
           = (t ++ [Log ERROR "Error reading stdin: " (Some e)], Normal Hid.Closed)
        /\ errors (t ++ [Log ERROR "Error reading stdin: " (Some e)])
           = [("Error reading stdin: ", Some e)]).
Proof.
  assert (H := read_break pre (Hid.Raises e) post _ (loop_body_read_fault e)).
  split; [ exact H | ].
  split; [ rewrite H; destruct (read_returns pre) as (t & s & ->);
           destruct s; reflexivity | ].
  split; [ reflexivity | ].
  intros Hpre. destruct (while_true_goes_on pre Hpre) as (t & Ht & He).
  exists (Log INFO "Starting touch event stream from stdin..." None :: t).
  assert (E : read_touch_events_from_stdin pre
              = (Log INFO "Starting touch event stream from stdin..." None :: t,
                 Normal Hid.Reading))
    by (rewrite read_touch_events_from_stdin_eq, Ht; reflexivity).
  split; [ exact E | ].
  split; [ rewrite H, E; reflexivity | ].
  rewrite errors_app.
  change (errors (Log INFO "Starting touch event stream from stdin..." None :: t))
    with (errors t).
  rewrite He. reflexivity.
Qed.

(** C9: a line that consists of whitespace only, its terminator included,
    yields no event, logs nothing and lets the loop go on: the trace and
    the final state are those of the feed without the line. *)
Theorem blank_line_skipped line pre post :
  line <> "" -> Str.all_space line = true ->
  loop_body (Hid.Returned line) = ([], Continued)
  /\ read_touch_events_from_stdin (pre ++ Hid.Returned line :: post)
     = read_touch_events_from_stdin (pre ++ post).
Proof.
  intros Hne Hsp.
  assert (Hb := loop_body_blank line Hne (all_space_strip _ Hsp)).
  split; [ exact Hb | ].
  rewrite !read_app, (while_true_next _ post _ _ Hb) by auto.
  destruct (while_true post). reflexivity.
Qed.


Lemma events_yields evs : events (map Yield evs) = evs.
Proof. induction evs as [ | ev evs IH ]; simpl; [ | rewrite IH ]; reflexivity. Qed.

Lemma while_true_touch_lines lines evs rest :
  Forall2 (Hid.touch_line json_loads float_of_str) lines evs ->
  while_true (map Hid.Returned lines ++ rest)
  = let '(t', s) := while_true rest in (map Yield evs ++ t', s).
Proof.
  induction 1 as [ | line ev lines evs Hl _ IH ]; simpl map.
  - simpl. destruct (while_true rest). reflexivity.
  - rewrite <- app_comm_cons.
    rewrite (while_true_next _ _ _ _ (touch_line_event _ _ Hl)) by auto.
    rewrite IH. destruct (while_true rest). reflexivity.
Qed.

(** C1, amended: when every line of a feed is a JSON object whose [type]
    is [touch_start], [touch_move] or [touch_end] and whose [x] and [y]
    are values that [float] accepts, the bridge yields one event per
    line, in the order of the lines: the press at
    [(float(x), float(y))], [DOWN] for [touch_start] and [touch_move],
    [UP] for [touch_end].  Nothing else is yielded, and the only records
    logged are those of the start and of the end of the input. *)
Theorem touch_lines_in_order lines evs :
  Forall2 (Hid.touch_line json_loads float_of_str) lines evs ->
  read_touch_events_from_stdin (Hid.finite_feed lines)
  = (Log INFO "Starting touch event stream from stdin..." None
       :: map Yield evs ++ [Log INFO "Received EOF, ending stream" None],
     Normal Hid.Closed)
  /\ events (fst (read_touch_events_from_stdin (Hid.finite_feed lines))) = evs.
Proof.
  intros H.
  assert (E : read_touch_events_from_stdin (Hid.finite_feed lines)
              = (Log INFO "Starting touch event stream from stdin..." None
                   :: map Yield evs ++ [Log INFO "Received EOF, ending stream" None],
                 Normal Hid.Closed)).
  { rewrite read_touch_events_from_stdin_eq. unfold Hid.finite_feed.
    rewrite (while_true_touch_lines _ _ _ H). reflexivity. }
  split; [ exact E | ].
  rewrite E. simpl. rewrite events_app, events_yields. simpl.
  apply app_nil_r.
Qed.

(** C2, amended: a line that is not blank and that is not valid JSON, or
    lacks one of [type], [x], [y], or has an unrecognised [type], yields
    no event, logs one warning and lets the loop go on: the events and
    the final state are those of the feed without the line, and such a
    line between two touch lines leaves exactly their two events. *)
Theorem malformed_line_isolated line pre post :
  Hid.malformed json_loads line ->
  (exists msg e,
      loop_body (Hid.Returned line) = ([Log WARNING msg (Some e)], Continued))
  /\ events (fst (read_touch_events_from_stdin (pre ++ Hid.Returned line :: post)))
     = events (fst (read_touch_events_from_stdin (pre ++ post)))
  /\ snd (read_touch_events_from_stdin (pre ++ Hid.Returned line :: post))
     = snd (read_touch_events_from_stdin (pre ++ post))
  /\ (forall l1 l2 e1 e2,
         Hid.touch_line json_loads float_of_str l1 e1 ->
         Hid.touch_line json_loads float_of_str l2 e2 ->
         events (fst (read_touch_events_from_stdin (Hid.finite_feed [l1; line; l2])))
         = [e1; e2]).
Proof.
  intros Hm. destruct (malformed_line_warning _ Hm) as (msg & e & Hb).
  split; [ eauto | ].
  assert (Hnext : forall rest,
             while_true (Hid.Returned line :: rest)
             = let '(t', s) := while_true rest in (Log WARNING msg (Some e) :: t', s)).
  { intros rest. rewrite (while_true_next _ rest _ _ Hb) by auto. reflexivity. }
  split; [ | split ].
  - rewrite !read_app, Hnext.
    destruct (read_touch_events_from_stdin pre) as [t [ [] | | | ]];
      try reflexivity.
    destruct (while_true post) as [t' s]. simpl.
    rewrite !events_app. reflexivity.
  - rewrite !read_app, Hnext.
    destruct (read_touch_events_from_stdin pre) as [t [ [] | | | ]];
      try reflexivity.
    destruct (while_true post) as [t' s]. reflexivity.
  - intros l1 l2 e1 e2 H1 H2.
    rewrite read_touch_events_from_stdin_eq. unfold Hid.finite_feed. simpl map.
    simpl app.
    rewrite (while_true_next _ _ _ _ (touch_line_event _ _ H1)) by auto.
    rewrite Hnext.
    rewrite (while_true_next _ _ _ _ (touch_line_event _ _ H2)) by auto.
    reflexivity.
Qed.

(** C10: for a line that is a JSON object with a recognised [type], the
    bridge yields the press at [(float(x), float(y))] whenever [float]
    accepts [x] and [y], which it does for a [bool] and for a [str] that
    spells a number as well as for a number; when [float] raises on [x]
    or on [y] the line yields no event, logs one warning and the loop
    goes on with the next read. *)
Theorem coordinates_coerced line dir vx vy :
  Hid.touch_object json_loads line dir vx vy ->
  (forall fx fy,
      py_float vx = ret fx -> py_float vy = ret fy ->
      loop_body (Hid.Returned line)
      = ([Yield (HIDPress (HIDTouch {| x := fx; y := fy |}) dir)], Normal tt))
  /\ ((exists e, py_float vx = raise e) \/ (exists e, py_float vy = raise e) ->
      exists e,
        loop_body (Hid.Returned line)
        = ([Log WARNING "Failed to convert event: " (Some e)], Continued)
        /\ forall rest,
            while_true (Hid.Returned line :: rest)
            = let '(t', s) := while_true rest in
              (Log WARNING "Failed to convert event: " (Some e) :: t', s))
  /\ py_float (JBool true) = ret (S754_finite false 4503599627370496 (-52))
  /\ py_float (JBool false) = ret (S754_zero false)
  /\ (forall s f, float_of_str s = Some f -> py_float (JStr s) = ret f)
  /\ (forall f, py_float (JFloat f) = ret f)
  /\ (forall z, py_float (JInt z) = lift (float_of_int z)).
Proof.
  intros (d & ty & Hd & Hty & Hdir & Hx & Hy).
  split; [ | split ].
  - intros fx fy Hfx Hfy. eapply loop_body_event; [ exact Hd | ].
    eapply convert_ok; eassumption.
  - intros Hraise.
    destruct (convert_raises (JDict d)) as [e He].
    + intros t ev Hc.
      destruct (convert_inv _ _ _ Hc)
        as (d' & ty' & dir' & vx' & vy' & fx & fy & Heq & _ & _ & Hx' & Hy' & Hfx & Hfy & _).
      inversion Heq; subst d'.
      rewrite Hx in Hx'. inversion Hx'; subst vx'.
      rewrite Hy in Hy'. inversion Hy'; subst vy'.
      unfold raise in Hraise.
      destruct Hraise as [[e He] | [e He]]; congruence.
    + exists e.
      assert (Hb := loop_body_convert_raises _ _ _ Hd He).
      split; [ exact Hb | ].
      intros rest. rewrite (while_true_next _ rest _ _ Hb) by auto. reflexivity.
  - repeat split.
    intros s f Hf. simpl. rewrite Hf. reflexivity.
Qed.

End Bridge.

(** * Properties of the key commands *)

Section Keys.

Variable int_of_str : string -> option Z.

Local Abbreviation map_int := (Hid.map_int int_of_str).
Local Abbreviation KeySequenceCommand_run_with_client :=
  (Hid.KeySequenceCommand_run_with_client int_of_str).

Lemma map_int_converts tokens codes :
  Forall2 (fun tok z => int_of_str tok = Some z) tokens codes ->
  map_int tokens = ([], Normal codes).
Proof.
  induction 1 as [ | tok z tokens codes Hz _ IH ]; [ reflexivity | ].
  simpl. unfold Hid.py_int. rewrite Hz. simpl. rewrite IH. reflexivity.
Qed.

Lemma map_int_raises tokens :
  Exists (fun tok => int_of_str tok = None) tokens ->
  exists e, map_int tokens = ([], Raised e) /\ exn_cls e = ValueError.
Proof.
  induction 1 as [ tok tokens Hz | tok tokens _ (e & IH & He) ]; simpl;
    unfold Hid.py_int.
  - rewrite Hz. simpl. eauto.
  - destruct (int_of_str tok); simpl; [ | eauto ].
    rewrite IH. eauto.
Qed.

(** C7, amended: the key command passes the key code it is given to the
    client, whatever its sign; no range is checked and a negative code
    is not rejected.  The key-sequence command passes the list of the
    integers [int] makes of the tokens, negative ones included, when
    [int] accepts them all; when [int] rejects a token, [ValueError]
    leaves the command and the client is not called. *)
Theorem key_codes_passed_unchecked :
  (forall args,
      Hid.KeyCommand_run_with_client args
      = ([Call (client_key (Hid.key args) (Hid.duration args))], Normal tt))
  /\ (forall tokens codes,
         Forall2 (fun tok z => int_of_str tok = Some z) tokens codes ->
         KeySequenceCommand_run_with_client {| Hid.key_sequence := tokens |}
         = ([Call (client_key_sequence codes)], Normal tt))
  /\ (forall tokens,
         Exists (fun tok => int_of_str tok = None) tokens ->
         exists e,
           KeySequenceCommand_run_with_client {| Hid.key_sequence := tokens |}
           = ([], Raised e)
           /\ exn_cls e = ValueError).
Proof.
  split; [ reflexivity | split ].
  - intros tokens codes H. unfold Hid.KeySequenceCommand_run_with_client. simpl.
    rewrite (map_int_converts _ _ H). reflexivity.
  - intros tokens H. destruct (map_int_raises _ H) as (e & He & Hc).
    exists e. unfold Hid.KeySequenceCommand_run_with_client. simpl.
    rewrite He. auto.
Qed.

End Keys.

(** * Properties of the stream configuration *)

Section StreamConfig.

Import Video.

Lemma py_eq_refl_int o : py_eq (of_option VInt o) (of_option VInt o) = true.
Proof. destruct o as [z | ]; simpl; [ apply Z.eqb_refl | reflexivity ]. Qed.

(** For the keys with an underscore the name tested has a hyphen and is
    no attribute. *)
Lemma hyphenated_absent args key :
  In key hyphenated_keys -> hasattr args (Str.replace "_" "-" key) = false.
Proof.
  intros H. repeat (destruct H as [<- | H]; [ reflexivity | ]). destruct H.
Qed.

Lemma guard_hyphenated args config key :
  In key hyphenated_keys -> override_guard args config key = true.
Proof.
  intros H. unfold override_guard. rewrite (hyphenated_absent _ _ H). reflexivity.
Qed.

Lemma guard_fps args config :
  config !! "fps" = Some (of_option VInt (fps args)) ->
  override_guard args config "fps" = true.
Proof.
  intros H. unfold override_guard, config_get. rewrite H. simpl.
  apply py_eq_refl_int.
Qed.


(** Case analysis on the membership [H] of a pair in an explicit list. *)
Ltac by_cases H tac :=
  simpl in H;
  repeat (destruct H as [H | H]; [ inversion H; subst; tac | ]);
  destruct H.

Lemma hasattr_preset args : hasattr args "preset" = true.
Proof. reflexivity. Qed.

Lemma initial_config_fps args :
  initial_config args !! "fps" = Some (of_option VInt (fps args)).
Proof. reflexivity. Qed.

Lemma apply_preset_overrides args items :
  (forall key v, In (key, v) items -> In key hyphenated_keys) ->
  forall config,
    apply_preset args items config
    = fold_left (fun config '(key, v) => <[key := v]> config) items config.
Proof.
  unfold apply_preset.
  induction items as [ | [key v] items IH ]; intros Hk config; [ reflexivity | ].
  simpl. rewrite (guard_hyphenated args config key) by (eapply Hk; left; reflexivity).
  apply IH. intros key' v' H. eapply Hk. right. exact H.
Qed.

(** C8: when the preset is [streaming], [low-latency] or [high-quality],
    every key of the preset holds the value of the preset in the
    configuration returned, whatever the options say: the condition of
    the guard is true at each key.  For the seven keys with an underscore
    the attribute tested has a hyphen in its name and does not exist; for
    [fps] the guard compares the option with the copy of it that the
    configuration holds at that point. *)
Theorem preset_overrides args name :
  preset args = Some name ->
  name = "streaming" \/ name = "low-latency" \/ name = "high-quality" ->
  exists items,
    preset_configs !! name = Some items
    /\ (forall key v,
           In (key, v) items -> _build_stream_config args !! key = Some v)
    /\ _build_stream_config args
       = fold_left (fun config '(key, v) => <[key := v]> config) items
                   (initial_config args)
    /\ (forall key v,
           In (key, v) items -> key = "fps" \/ In key hyphenated_keys)
    /\ (forall key config,
           In key hyphenated_keys ->
           hasattr args (Str.replace "_" "-" key) = false
           /\ override_guard args config key = true)
    /\ override_guard args (initial_config args) "fps" = true.
Proof.
  intros Hp Hname.
  assert (Hg : forall key config,
             In key hyphenated_keys ->
             hasattr args (Str.replace "_" "-" key) = false
             /\ override_guard args config key = true).
  { intros key config H. split;
      [ apply hyphenated_absent | apply guard_hyphenated ]; exact H. }
  assert (Hf := guard_fps args _ (initial_config_fps args)).
  assert (Hb : forall items v0,
             preset_configs !! name = Some (("fps", v0) :: items) ->
             (forall key v, In (key, v) items -> In key hyphenated_keys) ->
             _build_stream_config args
             = fold_left (fun config '(key, v) => <[key := v]> config)
                         (("fps", v0) :: items) (initial_config args)).
  { intros items v0 Hl Hk. unfold _build_stream_config.
    rewrite hasattr_preset, Hp.
    replace (truthy (Some name)) with true
      by (destruct Hname as [-> | [-> | ->]]; reflexivity).
    simpl. rewrite Hl. unfold apply_preset. simpl fold_left at 1. rewrite Hf.
    apply (apply_preset_overrides args items Hk). }
  destruct Hname as [-> | [-> | ->]];
    (eexists; split; [ reflexivity | ]); cbv beta iota delta [snd].
  all: match goal with
       | |- context [ fold_left _ ?items _ ] =>
           assert (Hk : forall key v,
                      In (key, v) (tl items) -> In key hyphenated_keys)
             by (intros key v H; by_cases H ltac:(idtac; simpl; auto 10));
           assert (E := Hb _ _ eq_refl Hk)
       end.
  all: split; [ intros key v H; rewrite E; by_cases H ltac:(idtac; reflexivity) | ].
  all: split; [ exact E | ].
  all: split; [ intros key v H; by_cases H ltac:(idtac; simpl; auto 10) | auto ].
Qed.

End StreamConfig.

(** * Properties of the swipe interpolator *)

Section SwipeProperties.

Import Swipe.
Local Open Scope R_scope.



Lemma distance_nonneg a b : 0 <= distance a b.
Proof. apply sqrt_pos. Qed.




Lemma lerp_one a b : lerp a b 1 = b.
Proof. unfold lerp. destruct b as [bx by_]. simpl. f_equal; ring. Qed.












End SwipeProperties.

(** * The properties on the sample inputs *)

Section Witnesses.

Import Reference Samples.

Local Abbreviation touch_line := (Hid.touch_line json_loads float_of_str).
Local Abbreviation touch_object := (Hid.touch_object json_loads).

(** Resolves a goal [touch_object line dir vx vy] on a sample line. *)
Ltac touch_object_tac :=
  eexists _, _;
  split; [ split; [ vm_compute; discriminate | vm_compute; reflexivity ] | ];
  split; [ vm_compute; reflexivity | ];
  split; [ constructor | ];
  split; vm_compute; reflexivity.

Ltac touch_line_tac :=
  eexists _, _, _, _, _;
  split; [ touch_object_tac | ];
  split; [ vm_compute; reflexivity | ];
  split; [ vm_compute; reflexivity | ];
  reflexivity.

Lemma touch_line_start_1_2 : touch_line start_1_2 (press (fl 1) (fl 2) DOWN).
Proof. touch_line_tac. Qed.


Lemma touch_line_move_3_4 : touch_line move_3_4 (press (fl 3) (fl 4) DOWN).
Proof. touch_line_tac. Qed.

Lemma touch_line_end_5_6 : touch_line end_5_6 (press (fl 5) (fl 6) UP).
Proof. touch_line_tac. Qed.

Lemma malformed_not_json : Hid.malformed json_loads not_json.
Proof.
  apply Hid.malformed_json; [ vm_compute; discriminate | ].
  eexists. split; vm_compute; reflexivity.
Qed.

(** The three lines of the example feed yield their three presses, in
    order. *)
Lemma touch_lines_in_order_witness :
  Forall2 touch_line [start_1_2; move_3_4; end_5_6]
    [press (fl 1) (fl 2) DOWN; press (fl 3) (fl 4) DOWN; press (fl 5) (fl 6) UP]
  /\ events (fst (bridge (start_1_2 ++ move_3_4 ++ end_5_6)))
     = [press (fl 1) (fl 2) DOWN; press (fl 3) (fl 4) DOWN; press (fl 5) (fl 6) UP].
Proof.
  assert (H : Forall2 touch_line [start_1_2; move_3_4; end_5_6]
                [press (fl 1) (fl 2) DOWN; press (fl 3) (fl 4) DOWN;
                 press (fl 5) (fl 6) UP]).
  { repeat constructor;
      [ exact touch_line_start_1_2 | exact touch_line_move_3_4
      | exact touch_line_end_5_6 ]. }
  split; [ exact H | ].
  exact (proj2 (touch_lines_in_order json_loads float_of_str _ _ H)).
Defined.

(** An object whose [x] is [null] has the three fields and a recognised
    [type], and yields no event. *)
Lemma null_coordinate_yields_nothing :
  touch_object start_null DOWN JNull (JInt 2)
  /\ readlines "" start_null = [start_null]
  /\ events (fst (bridge start_null)) = [].
Proof.
  split; [ touch_object_tac | ].
  split; vm_compute; reflexivity.
Qed.

(** Text that is not JSON between two touch lines: two events. *)
Lemma malformed_line_isolated_witness :
  Hid.malformed json_loads not_json
  /\ events (fst (bridge (start_1_2 ++ not_json ++ end_5_6)))
     = [press (fl 1) (fl 2) DOWN; press (fl 5) (fl 6) UP].
Proof.
  split; [ exact malformed_not_json | ].
  exact (proj2 (proj2 (proj2
           (malformed_line_isolated json_loads float_of_str not_json [] []
              malformed_not_json)))
           start_1_2 end_5_6 _ _ touch_line_start_1_2 touch_line_end_5_6).
Defined.

(** The empty line is not valid JSON, and the bridge logs nothing for
    it. *)
Lemma empty_line_logs_nothing :
  Hid.invalid_json json_loads LF
  /\ Hid.loop_body json_loads float_of_str (Hid.Returned LF) = ([], Continued)
  /\ diagnostics (fst (bridge LF))
     = [ (INFO, "Starting touch event stream from stdin...", None);
         (INFO, "Received EOF, ending stream", None) ].
Proof.
  split; [ eexists; split; vm_compute; reflexivity | ].
  split; vm_compute; reflexivity.
Qed.

Lemma blank_line_skipped_witness :
  blank <> "" /\ Str.all_space blank = true
  /\ Hid.loop_body json_loads float_of_str (Hid.Returned blank) = ([], Continued).
Proof.
  assert (H1 : blank <> "") by (vm_compute; discriminate).
  assert (H2 : Str.all_space blank = true) by reflexivity.
  split; [ exact H1 | split; [ exact H2 | ] ].
  exact (proj1 (blank_line_skipped json_loads float_of_str blank [] [] H1 H2)).
Defined.

(** A numeric string and a boolean are coerced; a string that spells no
    number is a fault of its line. *)
Lemma coordinates_coerced_witness :
  touch_object end_str_bool UP (JStr "1.5") (JBool true)
  /\ Hid.loop_body json_loads float_of_str (Hid.Returned end_str_bool)
     = ([Yield (press (float_of_decimal false 15 (-1)) (fl 1) UP)], Normal tt)
  /\ touch_object end_str_list UP (JStr "abc") (JList [])
  /\ exists e,
       Hid.loop_body json_loads float_of_str (Hid.Returned end_str_list)
       = ([Log WARNING "Failed to convert event: " (Some e)], Continued).
Proof.
  assert (H1 : touch_object end_str_bool UP (JStr "1.5") (JBool true))
    by touch_object_tac.
  assert (H2 : touch_object end_str_list UP (JStr "abc") (JList []))
    by touch_object_tac.
  split; [ exact H1 | split; [ | split; [ exact H2 | ] ] ].
  - apply (proj1 (coordinates_coerced json_loads float_of_str _ _ _ _ H1));
      vm_compute; reflexivity.
  - destruct (proj1 (proj2 (coordinates_coerced json_loads float_of_str _ _ _ _ H2)))
      as [e [He _]].
    + left. eexists. vm_compute. reflexivity.
    + exists e. exact He.
Defined.

(** A negative key code reaches the client, from either command. *)
Lemma negative_key_code_reaches_client :
  calls (fst (Hid.KeyCommand_run_with_client
                {| Hid.key := -1; Hid.duration := None |}))
  = [client_key (-1) None]
  /\ calls (fst (Hid.KeySequenceCommand_run_with_client int_of_str
                   {| Hid.key_sequence := ["4"; "-1"] |}))
     = [client_key_sequence [4; -1]].
Proof. split; vm_compute; reflexivity. Qed.

Lemma key_codes_passed_unchecked_witness :
  Forall2 (fun tok z => int_of_str tok = Some z) ["1"; "-2"; "3"] [1; -2; 3]
  /\ Hid.KeySequenceCommand_run_with_client int_of_str
       {| Hid.key_sequence := ["1"; "-2"; "3"] |}
     = ([Call (client_key_sequence [1; -2; 3])], Normal tt)
  /\ Exists (fun tok => int_of_str tok = None) ["1"; "a"]
  /\ calls (fst (Hid.KeySequenceCommand_run_with_client int_of_str
                   {| Hid.key_sequence := ["1"; "a"] |})) = [].
Proof.
  assert (H1 : Forall2 (fun tok z => int_of_str tok = Some z)
                 ["1"; "-2"; "3"] [1; -2; 3])
    by (repeat constructor).
  assert (H2 : Exists (fun tok => int_of_str tok = None) ["1"; "a"])
    by (right; left; reflexivity).
  split; [ exact H1 | split; [ | split; [ exact H2 | ] ] ].
  - exact (proj1 (proj2 (key_codes_passed_unchecked int_of_str)) _ _ H1).
  - destruct (proj2 (proj2 (key_codes_passed_unchecked int_of_str)) _ H2)
      as [e [He _]].
    rewrite He. reflexivity.
Defined.

Lemma preset_overrides_witness :
  Video.preset low_latency_args = Some "low-latency"
  /\ Video._build_stream_config low_latency_args !! "fps" = Some (Video.VInt 60)
  /\ Video._build_stream_config low_latency_args !! "max_bitrate"
     = Some (Video.VInt 6000).
Proof.
  split; [ reflexivity | ].
  destruct (preset_overrides low_latency_args "low-latency" eq_refl
              (or_intror (or_introl eq_refl)))
    as (items & Hitems & Hkeys & _).
  vm_compute in Hitems. inversion Hitems; subst items. clear Hitems.
  split; apply Hkeys; simpl; auto 10.
Defined.


(** A fault of the read after a touch line, text that is not JSON and a
    blank line: the record of the fault ends the trace, and the line
    after it is not read. *)
Lemma read_fault_closes_witness :
  Forall (Hid.goes_on json_loads)
    [Hid.Returned start_1_2; Hid.Returned not_json; Hid.Returned blank]
  /\ Hid.read_touch_events_from_stdin json_loads float_of_str
       ([Hid.Returned start_1_2; Hid.Returned not_json; Hid.Returned blank]
        ++ Hid.Raises (Exn OSError "Input/output error" None)
        :: [Hid.Returned end_5_6])
     = ([ Log INFO "Starting touch event stream from stdin..." None;
          Yield (press (fl 1) (fl 2) DOWN);
          Log WARNING "Invalid JSON: "
            (Some (Exn JSONDecodeError "Expecting value" None));
          Log ERROR "Error reading stdin: "
            (Some (Exn OSError "Input/output error" None)) ],
        Normal Hid.Closed).
Proof.
  assert (H : Forall (Hid.goes_on json_loads)
                [Hid.Returned start_1_2; Hid.Returned not_json; Hid.Returned blank]).
  { repeat constructor.
    - exists start_1_2. split; [ reflexivity | ].
      split; [ vm_compute; discriminate | ].
      right. left. eexists. vm_compute. reflexivity.
    - exists not_json. split; [ reflexivity | ].
      split; [ vm_compute; discriminate | ].
      right. right. eexists. split; vm_compute; reflexivity.
    - exists blank. split; [ reflexivity | ].
      split; [ vm_compute; discriminate | ].
      left. reflexivity. }
  split; [ exact H | ].
  destruct (proj2 (proj2 (proj2
              (read_fault_closes json_loads float_of_str
                 (Exn OSError "Input/output error" None)
                 [Hid.Returned start_1_2; Hid.Returned not_json; Hid.Returned blank]
                 [Hid.Returned end_5_6]))) H)
    as (t & Ht & Hr & _).
  vm_compute in Ht. injection Ht as <-. exact Hr.
Defined.

End Witnesses.

(** * Further properties of the stream bridge *)

Section BridgeConversion.

Variable float_of_str : string -> option float.

Local Abbreviation py_float := (Hid.py_float float_of_str).
Local Abbreviation convert_touch_event_to_hid :=
  (Hid.convert_touch_event_to_hid float_of_str).

Lemma all_in_three d :
  all_in ["type"; "x"; "y"] (JDict d)
  = ([], Normal (bool_decide (is_Some (d !! "type"))
                 && (bool_decide (is_Some (d !! "x"))
                     && (bool_decide (is_Some (d !! "y")) && true)))).
Proof. apply all_in_dict. Qed.

(** X1: The order in which the conversion finds fault with an object: a
    missing field first, whatever the other fields hold; then what
    [float] raises on [x]; then what it raises on [y]; the [type] last,
    with [TypeError] for a list or an object, which cannot be hashed, and
    [ValueError] for any other value that is not one of the three
    names. *)
Theorem conversion_error_order d :
  (d !! "type" = None \/ d !! "x" = None \/ d !! "y" = None ->
   convert_touch_event_to_hid (JDict d)
   = raise (Exn ValueError "Missing required fields in event: " (Some (JDict d))))
  /\ (forall ty vx vy,
         d !! "type" = Some ty -> d !! "x" = Some vx -> d !! "y" = Some vy ->
         (forall e, py_float vx = raise e ->
                    convert_touch_event_to_hid (JDict d) = raise e)
         /\ (forall fx e, py_float vx = ret fx -> py_float vy = raise e ->
                          convert_touch_event_to_hid (JDict d) = raise e)
         /\ (forall fx fy, py_float vx = ret fx -> py_float vy = ret fy ->
               match ty with
               | JStr s =>
                   (forall dir, ~ Hid.touch_type s dir) ->
                   convert_touch_event_to_hid (JDict d)
                   = raise (Exn ValueError "Unknown touch event type: " (Some ty))
               | JList _ =>
                   convert_touch_event_to_hid (JDict d)
                   = raise (Exn TypeError "unhashable type: 'list'" None)
               | JDict _ =>
                   convert_touch_event_to_hid (JDict d)
                   = raise (Exn TypeError "unhashable type: 'dict'" None)
               | _ =>
                   convert_touch_event_to_hid (JDict d)
                   = raise (Exn ValueError "Unknown touch event type: " (Some ty))
               end)).
Proof.
  split.
  - intros H. unfold Hid.convert_touch_event_to_hid.
    rewrite all_in_three.
    destruct H as [H | [H | H]]; rewrite H; simpl;
      repeat match goal with
             | |- context [ bool_decide ?P ] => destruct (bool_decide P); simpl
             end; reflexivity.
  - intros ty vx vy Hty Hx Hy.
    assert (E : forall k : json -> M HIDEvent,
               (present <- all_in ["type"; "x"; "y"] (JDict d) ;;
                when (negb present)
                  (raise (Exn ValueError "Missing required fields in event: "
                            (Some (JDict d)))) ;;
                ex <- getitem (JDict d) "x" ;; k ex)
               = k vx).
    { intros k. rewrite all_in_three, Hty, Hx, Hy. simpl. rewrite Hx. simpl.
      destruct (k vx). reflexivity. }
    unfold Hid.convert_touch_event_to_hid. rewrite E. clear E.
    split; [ | split ].
    + intros e He. rewrite He. reflexivity.
    + intros fx e Hfx He. rewrite Hfx. simpl. rewrite Hy. simpl. rewrite He.
      reflexivity.
    + intros fx fy Hfx Hfy. rewrite Hfx. simpl. rewrite Hy. simpl. rewrite Hfy.
      simpl. rewrite Hty. simpl.
      destruct ty as [ | b | z | f | s | l | d' ]; simpl; try reflexivity.
      intros Hno.
      destruct (Hid.direction_map !! s) as [dir | ] eqn:Hdir; [ | reflexivity ].
      apply direction_map_lookup in Hdir. destruct (Hno dir Hdir).
Qed.


Lemma conversion_agrees d d' ev :
  d !! "type" = d' !! "type" -> d !! "x" = d' !! "x" -> d !! "y" = d' !! "y" ->
  convert_touch_event_to_hid (JDict d) = ret ev ->
  convert_touch_event_to_hid (JDict d') = ret ev.
Proof.
  intros Hty Hx Hy Hc.
  destruct (convert_inv _ _ _ _ Hc)
    as (d0 & ty & dir & vx & vy & fx & fy & Heq & Hty0 & Hdir & Hx0 & Hy0 & Hfx & Hfy & _ & ->).
  inversion Heq; subst d0.
  eapply convert_ok; try eassumption; congruence.
Qed.

(** X2: The conversion reads the fields [type], [x] and [y] of an object and
    no other: setting or removing any other field leaves the event
    unchanged. *)
Theorem other_fields_ignored d k v ev :
  k <> "type" -> k <> "x" -> k <> "y" ->
  (convert_touch_event_to_hid (JDict (<[k := v]> d)) = ret ev
   <-> convert_touch_event_to_hid (JDict d) = ret ev)
  /\ (convert_touch_event_to_hid (JDict (delete k d)) = ret ev
      <-> convert_touch_event_to_hid (JDict d) = ret ev).
Proof.
  intros Hty Hx Hy.
  split; split; apply conversion_agrees;
    rewrite ?lookup_insert_ne, ?lookup_delete_ne by congruence; reflexivity.
Qed.

Lemma existsb_name l key :
  existsb (fun v => match v with
                    | JStr s => String.eqb s key
                    | _ => false
                    end) l = true
  <-> In (JStr key) l.
Proof.
  rewrite existsb_exists. split.
  - intros (v & Hin & Hv). destruct v; try discriminate.
    apply String.eqb_eq in Hv. subst. exact Hin.
  - intros Hin. exists (JStr key). split; [ exact Hin | apply String.eqb_refl ].
Qed.

(** X3: A JSON value that is no object never converts.  [None], a boolean
    and a number raise [TypeError] at the test of the fields.  A list
    passes that test when the three names are among its elements, a
    string when they occur in it, and then raises [TypeError] at the
    first subscript; otherwise it raises the [ValueError] of a missing
    field. *)
Theorem conversion_of_non_object :
  (forall v, (v = JNull \/ (exists b, v = JBool b) \/ (exists z, v = JInt z)
              \/ (exists f, v = JFloat f)) ->
             convert_touch_event_to_hid v
             = raise (Exn TypeError "argument is not iterable" (Some v)))
  /\ (forall l,
         (In (JStr "type") l /\ In (JStr "x") l /\ In (JStr "y") l ->
          convert_touch_event_to_hid (JList l)
          = raise (Exn TypeError "list indices must be integers or slices, not str" None))
         /\ (~ (In (JStr "type") l /\ In (JStr "x") l /\ In (JStr "y") l) ->
             convert_touch_event_to_hid (JList l)
             = raise (Exn ValueError "Missing required fields in event: "
                        (Some (JList l)))))
  /\ (forall s,
         (Str.contains s "type" && Str.contains s "x" && Str.contains s "y" = true ->
          convert_touch_event_to_hid (JStr s)
          = raise (Exn TypeError "string indices must be integers, not 'str'" None))
         /\ (Str.contains s "type" && Str.contains s "x" && Str.contains s "y" = false ->
             convert_touch_event_to_hid (JStr s)
             = raise (Exn ValueError "Missing required fields in event: "
                        (Some (JStr s))))).
Proof.
  split; [ | split ].
  - intros v [-> | [[b ->] | [[z ->] | [f ->]]]]; reflexivity.
  - intros l.
    pose proof (existsb_name l "type") as Ht.
    pose proof (existsb_name l "x") as Hx.
    pose proof (existsb_name l "y") as Hy.
    unfold Hid.convert_touch_event_to_hid. simpl.
    split.
    + intros (H1 & H2 & H3).
      apply Ht in H1. apply Hx in H2. apply Hy in H3.
      rewrite H1. simpl. rewrite H2. simpl. rewrite H3. reflexivity.
    + intros Hno.
      destruct (existsb _ l) eqn:E1 in |- *; simpl; [ | reflexivity ].
      destruct (existsb _ l) eqn:E2 in |- *; simpl; [ | reflexivity ].
      destruct (existsb _ l) eqn:E3 in |- *; simpl; [ | reflexivity ].
      exfalso. apply Hno. rewrite <- Ht, <- Hx, <- Hy. auto.
  - intros s. unfold Hid.convert_touch_event_to_hid. simpl.
    destruct (Str.contains s "type"); simpl;
      [ | split; [ discriminate | reflexivity ] ].
    destruct (Str.contains s "x"); simpl;
      [ | split; [ discriminate | reflexivity ] ].
    destruct (Str.contains s "y"); simpl;
      split; try discriminate; reflexivity.
Qed.

End BridgeConversion.

Section BridgeLoop.

Variable json_loads : string -> exn + json.
Variable float_of_str : string -> option float.

Local Abbreviation loop_body := (Hid.loop_body json_loads float_of_str).
Local Abbreviation while_true := (Hid.while_true json_loads float_of_str).
Local Abbreviation read_touch_events_from_stdin :=
  (Hid.read_touch_events_from_stdin json_loads float_of_str).

Lemma lstrip_all_space ws : Str.all_space ws = true -> Str.lstrip ws = "".
Proof.
  induction ws as [ | c ws IH ]; simpl; [ reflexivity | ].
  destruct (Str.isspace c); simpl; [ exact IH | discriminate ].
Qed.

Lemma lstrip_app_space ws s :
  Str.all_space ws = true -> Str.lstrip (ws ++ s)%string = Str.lstrip s.
Proof.
  induction ws as [ | c ws IH ]; simpl; [ reflexivity | ].
  destruct (Str.isspace c); simpl; [ exact IH | discriminate ].
Qed.

Lemma lstrip_app_empty s ws :
  Str.lstrip s = "" -> Str.lstrip (s ++ ws)%string = Str.lstrip ws.
Proof.
  induction s as [ | c s IH ]; simpl; [ reflexivity | ].
  destruct (Str.isspace c); [ exact IH | discriminate ].
Qed.

Lemma lstrip_app_nonempty s ws :
  Str.lstrip s <> "" -> Str.lstrip (s ++ ws)%string = (Str.lstrip s ++ ws)%string.
Proof.
  induction s as [ | c s IH ]; simpl; [ congruence | ].
  destruct (Str.isspace c); [ exact IH | reflexivity ].
Qed.

Lemma rstrip_all_space ws : Str.all_space ws = true -> Str.rstrip ws = "".
Proof.
  induction ws as [ | c ws IH ]; simpl; [ reflexivity | ].
  destruct (Str.isspace c); simpl; [ | discriminate ].
  intros H. rewrite (IH H). reflexivity.
Qed.

Lemma rstrip_app_space s ws :
  Str.all_space ws = true -> Str.rstrip (s ++ ws)%string = Str.rstrip s.
Proof.
  intros H. induction s as [ | c s IH ]; simpl.
  - apply rstrip_all_space. exact H.
  - rewrite IH. reflexivity.
Qed.

Lemma strip_app_space ws1 s ws2 :
  Str.all_space ws1 = true -> Str.all_space ws2 = true ->
  Str.strip (ws1 ++ s ++ ws2)%string = Str.strip s.
Proof.
  intros H1 H2. unfold Str.strip. rewrite (lstrip_app_space _ _ H1).
  destruct (decide (Str.lstrip s = "")) as [E | E].
  - rewrite (lstrip_app_empty _ _ E), (lstrip_all_space _ H2), E. reflexivity.
  - rewrite (lstrip_app_nonempty _ _ E). apply rstrip_app_space. exact H2.
Qed.

Lemma loop_body_strip l1 l2 :
  l1 <> "" -> l2 <> "" -> Str.strip l1 = Str.strip l2 ->
  loop_body (Hid.Returned l1) = loop_body (Hid.Returned l2).
Proof.
  intros H1 H2 E. unfold Hid.loop_body. simpl.
  rewrite (is_empty_false _ H1), (is_empty_false _ H2). simpl. rewrite E.
  reflexivity.
Qed.

(** X4: Whitespace around the text of a line, such as an indentation or a
    carriage return before the line feed, changes nothing in what the
    iteration does with the line. *)
Theorem surrounding_whitespace_ignored line ws1 ws2 :
  line <> "" -> Str.all_space ws1 = true -> Str.all_space ws2 = true ->
  loop_body (Hid.Returned (ws1 ++ line ++ ws2)%string)
  = loop_body (Hid.Returned line).
Proof.
  intros Hne H1 H2. apply loop_body_strip; [ | exact Hne | ].
  - destruct ws1; simpl; [ | discriminate ].
    destruct line; simpl; [ congruence | discriminate ].
  - apply strip_app_space; assumption.
Qed.

(** X5: When [json.loads] raises an exception that is no [JSONDecodeError] on
    a line, the handler of the read faults takes it: a bridge that is
    still reading logs it once as an error of the read, yields nothing
    for the line, and returns; the lines after it are not read. *)
Theorem decoder_fault_closes line e pre post :
  Str.strip line <> "" ->
  json_loads (Str.strip line) = inl e ->
  isinstance e JSONDecodeError = false ->
  read_touch_events_from_stdin (pre ++ Hid.Returned line :: post)
  = match read_touch_events_from_stdin pre with
    | (t, Normal Hid.Reading) =>
        (t ++ [Log ERROR "Error reading stdin: " (Some e)], Normal Hid.Closed)
    | done => done
    end.
Proof.
  intros Hs Hl Hi. apply read_break.
  apply loop_body_loads_raises; assumption.
Qed.

(** X6: An iteration performs at most one effect: over any reads the
    generator yields no more events than it made reads, and logs no more
    records than reads that yielded nothing, the record of the start
    apart. *)
Theorem one_effect_per_read stdin :
  let t := fst (read_touch_events_from_stdin stdin) in
  (length (events t) + length (diagnostics t) <= S (length stdin))%nat
  /\ (length (events t) <= length stdin)%nat.
Proof.
  rewrite read_touch_events_from_stdin_eq.
  assert (H : (length (events (fst (while_true stdin)))
               + length (diagnostics (fst (while_true stdin))) <= length stdin)%nat).
  { induction stdin as [ | r stdin IH ]; [ simpl; lia | ].
    rewrite while_true_cons.
    destruct (loop_body_iteration json_loads float_of_str r) as (t & o & -> & Hit).
    destruct (while_true stdin) as [t' s]. simpl in IH.
    destruct Hit; simpl; lia. }
  destruct (while_true stdin) as [t s]. simpl in *. lia.
Qed.

End BridgeLoop.

(** * Further properties of the key-sequence command *)

Section KeySequence.

Variable int_of_str : string -> option Z.

Local Abbreviation map_int := (Hid.map_int int_of_str).
Local Abbreviation KeySequenceCommand_run_with_client :=
  (Hid.KeySequenceCommand_run_with_client int_of_str).



Lemma map_int_pure tokens : fst (map_int tokens) = [].
Proof.
  induction tokens as [ | tok tokens IH ]; simpl; [ reflexivity | ].
  unfold Hid.py_int. destruct (int_of_str tok); simpl; [ | reflexivity ].
  destruct (map_int tokens) as [t [zs | e | | ]]; simpl in *; subst; reflexivity.
Qed.

Lemma map_int_inv tokens t codes :
  map_int tokens = (t, Normal codes) ->
  t = [] /\ Forall2 (fun tok z => int_of_str tok = Some z) tokens codes.
Proof.
  revert t codes. induction tokens as [ | tok tokens IH ]; simpl; intros t codes H.
  - inversion H. auto.
  - unfold Hid.py_int in H. destruct (int_of_str tok) as [z | ] eqn:Hz; simpl in H;
      [ | discriminate ].
    destruct (map_int tokens) as [t' [zs | e | | ]] eqn:Hm; simpl in H;
      try discriminate.
    inversion H; subst. destruct (IH _ _ eq_refl) as [-> Hf]. auto.
Qed.

(** X8: The client is called at most once, and with one key code per token,
    in the order of the tokens; an empty sequence is a call with no key
    code, not an error. *)
Theorem key_sequence_call_shape tokens :
  (calls (fst (KeySequenceCommand_run_with_client {| Hid.key_sequence := tokens |})) = []
   \/ exists codes,
        calls (fst (KeySequenceCommand_run_with_client {| Hid.key_sequence := tokens |}))
        = [client_key_sequence codes]
        /\ Forall2 (fun tok z => int_of_str tok = Some z) tokens codes
        /\ length codes = length tokens)
  /\ KeySequenceCommand_run_with_client {| Hid.key_sequence := [] |}
     = ([Call (client_key_sequence [])], Normal tt).
Proof.
  split; [ | reflexivity ].
  unfold Hid.KeySequenceCommand_run_with_client. simpl.
  pose proof (map_int_pure tokens) as Hp.
  destruct (map_int tokens) as [t [codes | e | | ]] eqn:Hm; simpl in *; subst;
    auto.
  destruct (map_int_inv _ _ _ Hm) as [_ Hf]. right. exists codes.
  split; [ reflexivity | split; [ exact Hf | ] ].
  symmetry. eapply Forall2_length. exact Hf.
Qed.

End KeySequence.

(** * Further properties of the video stream command *)

Section Validation.

Import Video.

Lemma validate_args_eq args :
  _validate_args args
  = (keyframe_warning args ++ bitrate_warning args ++ buffer_warning args,
     if SFltb (compression_quality args) f0_0
        || SFltb f1_0 (compression_quality args)
     then Raised (Exn ValueError "Compression quality must be between 0.0 and 1.0" None)
     else if SFleb (scale_factor args) f0_0 || SFltb f1_0 (scale_factor args)
     then Raised (Exn ValueError "Scale factor must be between 0.0 and 1.0" None)
     else Normal tt).
Proof.
  unfold _validate_args, keyframe_warning, bitrate_warning, buffer_warning.
  destruct ((keyframe_interval args <? 15) || (120 <? keyframe_interval args));
    destruct ((max_bitrate args <? 1000) || (10000 <? max_bitrate args));
    destruct (max_bitrate args <? buffer_size args);
    destruct (SFltb (compression_quality args) f0_0
              || SFltb f1_0 (compression_quality args));
    destruct (SFleb (scale_factor args) f0_0 || SFltb f1_0 (scale_factor args));
    reflexivity.
Qed.


(** X9: The warnings of the validation: one for a keyframe interval outside
    15..120, one for a maximal bitrate outside 1000..10000, one for a
    buffer larger than the maximal bitrate, in this order, and nothing
    else; they are logged whether or not the validation then raises, and
    there is none exactly when the three integers are in these ranges. *)
Theorem validation_warnings args :
  fst (_validate_args args)
  = keyframe_warning args ++ bitrate_warning args ++ buffer_warning args
  /\ (fst (_validate_args args) = []
      <-> 15 <= keyframe_interval args <= 120
          /\ 1000 <= max_bitrate args <= 10000
          /\ buffer_size args <= max_bitrate args).
Proof.
  rewrite validate_args_eq. simpl. split; [ reflexivity | ].
  unfold keyframe_warning, bitrate_warning, buffer_warning.
  destruct (keyframe_interval args <? 15) eqn:E1;
    destruct (120 <? keyframe_interval args) eqn:E2;
    destruct (max_bitrate args <? 1000) eqn:E3;
    destruct (10000 <? max_bitrate args) eqn:E4;
    destruct (max_bitrate args <? buffer_size args) eqn:E5;
    simpl; (split; [ intros H; try discriminate | intros H; try reflexivity ]);
    rewrite ?Z.ltb_lt, ?Z.ltb_ge in *; lia.
Qed.

(** X10: The validation raises for the two floats only: it returns exactly
    when the compression quality is neither below 0.0 nor above 1.0 and
    the scale factor is neither at most 0.0 nor above 1.0, as binary64
    compares them, whatever the integers are.  A value that is not a
    number fails none of these comparisons and passes.  When both floats
    are out of range the error is that of the compression quality. *)
Theorem validation_outcome args :
  (snd (_validate_args args) = Normal tt
   <-> SFltb (compression_quality args) f0_0 = false
       /\ SFltb f1_0 (compression_quality args) = false
       /\ SFleb (scale_factor args) f0_0 = false
       /\ SFltb f1_0 (scale_factor args) = false)
  /\ (compression_quality args = S754_nan -> scale_factor args = S754_nan ->
      snd (_validate_args args) = Normal tt)
  /\ (SFltb (compression_quality args) f0_0 = true
      \/ SFltb f1_0 (compression_quality args) = true ->
      snd (_validate_args args)
      = Raised (Exn ValueError "Compression quality must be between 0.0 and 1.0" None))
  /\ (forall e, snd (_validate_args args) = Raised e ->
                exn_cls e = ValueError
                /\ forall other,
                    compression_quality other = compression_quality args ->
                    scale_factor other = scale_factor args ->
                    snd (_validate_args other) = Raised e).
Proof.
  rewrite validate_args_eq. simpl.
  split; [ | split; [ | split ] ].
  - destruct (SFltb (compression_quality args) f0_0);
      destruct (SFltb f1_0 (compression_quality args));
      destruct (SFleb (scale_factor args) f0_0);
      destruct (SFltb f1_0 (scale_factor args)); simpl;
      (split; [ intros H; try discriminate; auto | intros (? & ? & ? & ?); try discriminate; auto ]).
  - intros -> ->. reflexivity.
  - intros [-> | ->]; [ reflexivity | ].
    destruct (SFltb (compression_quality args) f0_0); reflexivity.
  - intros e He. split.
    + destruct (SFltb (compression_quality args) f0_0
                || SFltb f1_0 (compression_quality args));
        [ inversion He; reflexivity | ].
      destruct (SFleb (scale_factor args) f0_0 || SFltb f1_0 (scale_factor args));
        [ inversion He; reflexivity | discriminate ].
    + intros other Hc Hs. rewrite validate_args_eq. simpl. rewrite Hc, Hs.
      exact He.
Qed.

End Validation.

Section Configuration.

Import Video.

Variable VideoFormat : Type.
Variable H264_value : string.
Variable _FORMAT_CHOICE_MAP : gmap string VideoFormat.

Local Abbreviation parse_args := (parse_args VideoFormat H264_value _FORMAT_CHOICE_MAP).
Local Abbreviation VideoStreamCommand_stream_video :=
  (VideoStreamCommand_stream_video VideoFormat _FORMAT_CHOICE_MAP).

(** Case analysis on the membership [H] of a pair in an explicit list. *)
Ltac in_cases H tac :=
  simpl in H;
  repeat (destruct H as [H | H]; [ inversion H; subst; tac | ]);
  destruct H.

Lemma preset_configs_inv name items :
  preset_configs !! name = Some items ->
  (name = "streaming" \/ name = "low-latency" \/ name = "high-quality")
  /\ exists v0 rest,
       items = ("fps", v0) :: rest
       /\ (forall key v, In (key, v) rest -> In key hyphenated_keys)
       /\ In ("allow_frame_reordering", VBool false) rest
       /\ In ("realtime_optimization", VBool true) rest
       /\ NoDup (map fst items).
Proof.
  unfold preset_configs. simpl. intros H.
  destruct (decide (name = "streaming")) as [-> | n1].
  { rewrite lookup_insert_eq in H. inversion H; subst. split; [ auto | ].
    eexists _, _. split; [ reflexivity | ].
    split; [ intros key v Hin; in_cases Hin ltac:(idtac; simpl; auto 10) | ].
    split; [ simpl; auto 10 | ]. split; [ simpl; auto 10 | ].
    apply (bool_decide_unpack _). vm_compute. exact I. }
  rewrite lookup_insert_ne in H by congruence.
  destruct (decide (name = "low-latency")) as [-> | n2].
  { rewrite lookup_insert_eq in H. inversion H; subst. split; [ auto | ].
    eexists _, _. split; [ reflexivity | ].
    split; [ intros key v Hin; in_cases Hin ltac:(idtac; simpl; auto 10) | ].
    split; [ simpl; auto 10 | ]. split; [ simpl; auto 10 | ].
    apply (bool_decide_unpack _). vm_compute. exact I. }
  rewrite lookup_insert_ne in H by congruence.
  destruct (decide (name = "high-quality")) as [-> | n3].
  { rewrite lookup_insert_eq in H. inversion H; subst. split; [ auto | ].
    eexists _, _. split; [ reflexivity | ].
    split; [ intros key v Hin; in_cases Hin ltac:(idtac; simpl; auto 10) | ].
    split; [ simpl; auto 10 | ]. split; [ simpl; auto 10 | ].
    apply (bool_decide_unpack _). vm_compute. exact I. }
  rewrite lookup_insert_ne in H by congruence.
  rewrite lookup_empty in H. discriminate.
Qed.

Lemma build_with_preset args name items :
  preset args = Some name -> preset_configs !! name = Some items ->
  _build_stream_config args = assign items (initial_config args).
Proof.
  intros Hp Hl.
  destruct (preset_configs_inv _ _ Hl) as (Hname & v0 & rest & -> & Hk & _).
  unfold _build_stream_config. rewrite hasattr_preset, Hp.
  replace (truthy (Some name)) with true
    by (destruct Hname as [-> | [-> | ->]]; reflexivity).
  simpl. rewrite Hl. unfold apply_preset, assign. simpl fold_left at 1.
  rewrite (guard_fps args _ (initial_config_fps args)).
  apply (apply_preset_overrides args rest Hk).
Qed.

Lemma build_without_preset args :
  (forall name items, preset args = Some name -> preset_configs !! name <> Some items) ->
  _build_stream_config args = initial_config args.
Proof.
  intros H. unfold _build_stream_config.
  destruct (hasattr args "preset" && truthy (preset args)); [ | reflexivity ].
  destruct (preset args) as [name | ]; simpl; [ | reflexivity ].
  destruct (preset_configs !! name) as [items | ] eqn:E; [ | reflexivity ].
  destruct (H name items eq_refl E).
Qed.

Lemma assign_lookup_other items config key :
  (forall v, ~ In (key, v) items) -> assign items config !! key = config !! key.
Proof.
  unfold assign. revert config.
  induction items as [ | [k v] items IH ]; intros config H; [ reflexivity | ].
  simpl. rewrite IH by (intros v' Hin; apply (H v'); right; exact Hin).
  apply lookup_insert_ne. intros ->. apply (H v). left. reflexivity.
Qed.

Lemma assign_dom items config :
  (forall key v, In (key, v) items -> is_Some (config !! key)) ->
  dom (assign items config) = dom config.
Proof.
  unfold assign. revert config.
  induction items as [ | [k v] items IH ]; intros config H; [ reflexivity | ].
  simpl. rewrite IH.
  - rewrite dom_insert_L.
    assert (Hk : k ∈ dom config) by (apply elem_of_dom; eapply H; left; reflexivity).
    apply set_eq. intros j. rewrite elem_of_union, elem_of_singleton.
    split; [ intros [-> | Hj]; assumption | auto ].
  - intros key v' Hin. destruct (decide (k = key)) as [-> | Hne].
    + rewrite lookup_insert_eq. eauto.
    + rewrite lookup_insert_ne by exact Hne. eapply H. right. exact Hin.
Qed.

Lemma assign_lookup_last items config key v :
  NoDup (map fst items) -> In (key, v) items -> assign items config !! key = Some v.
Proof.
  unfold assign. revert config.
  induction items as [ | [k v'] items IH ]; intros config Hnd Hin; [ destruct Hin | ].
  simpl in *. inversion Hnd as [ | ? ? Hnotin Hnd' ]; subst.
  destruct Hin as [Heq | Hin].
  - inversion Heq; subst.
    change (assign items (<[key := v]> config) !! key = Some v).
    rewrite assign_lookup_other.
    + apply lookup_insert_eq.
    + intros v0 Hin0. apply Hnotin. apply list_elem_of_In.
      apply (in_map fst) in Hin0. exact Hin0.
  - apply IH; assumption.
Qed.

Lemma initial_config_dom args :
  dom (initial_config args) = list_to_set config_keys.
Proof. reflexivity. Qed.


Lemma preset_key_in_config name items key v :
  preset_configs !! name = Some items -> In (key, v) items ->
  key <> "format" /\ key <> "scale_factor"
  /\ forall args, is_Some (initial_config args !! key).
Proof.
  intros Hl Hin.
  destruct (preset_configs_inv _ _ Hl) as (_ & v0 & rest & -> & Hk & _).
  assert (Hkey : key = "fps" \/ In key hyphenated_keys).
  { destruct Hin as [Heq | Hin]; [ inversion Heq; auto | right; eapply Hk; exact Hin ]. }
  destruct Hkey as [-> | Hkey].
  - split; [ discriminate | split; [ discriminate | ] ]. intros args. eexists. reflexivity.
  - in_cases Hkey ltac:(idtac; split; [ discriminate | split; [ discriminate | ] ];
                        intros args; eexists; reflexivity).
Qed.

Lemma configuration_shape_none args :
  preset args ≫= (preset_configs !!.) = None ->
  _build_stream_config args = initial_config args.
Proof.
  intros E. apply build_without_preset. intros name items Hp Hl.
  rewrite Hp in E. simpl in E. congruence.
Qed.

(** X11: The configuration has the same ten keys whatever the options and the
    preset are.  No preset touches [format] or [scale_factor]: they hold
    what the options gave.  A preset that is absent, empty or not in the
    table raises nothing and leaves the configuration as the options
    gave it. *)
Theorem configuration_shape args :
  dom (_build_stream_config args) = list_to_set config_keys
  /\ _build_stream_config args !! "format" = Some (VStr (format args))
  /\ _build_stream_config args !! "scale_factor"
     = Some (VFloat (scale_factor args))
  /\ (preset args ≫= (preset_configs !!.) = None ->
      _build_stream_config args = initial_config args).
Proof.
  destruct (preset args ≫= (preset_configs !!.)) as [items | ] eqn:E.
  - destruct (preset args) as [name | ] eqn:Hp; [ | discriminate ].
    simpl in E. rewrite (build_with_preset _ _ _ Hp E).
    split; [ | split; [ | split; [ | discriminate ] ] ].
    + rewrite assign_dom; [ apply initial_config_dom | ].
      intros key v Hin. apply (preset_key_in_config _ _ _ _ E Hin).
    + rewrite assign_lookup_other; [ reflexivity | ].
      intros v Hin. destruct (preset_key_in_config _ _ _ _ E Hin) as [H _]. congruence.
    + rewrite assign_lookup_other; [ reflexivity | ].
      intros v Hin. destruct (preset_key_in_config _ _ _ _ E Hin) as (_ & H & _).
      congruence.
  - rewrite (configuration_shape_none args E). repeat split; reflexivity.
Qed.

(** X12: The call of [client.stream_video] carries the options as the parser
    gave them and the name of the preset: for every key of a preset the
    configuration holds the value of the preset, and the call holds what
    the configuration held before the preset was applied. *)
Theorem preset_values_not_sent args c :
  VideoStreamCommand_stream_video args = inr c ->
  call_config VideoFormat c = delete "format" (initial_config args)
  /\ kw_preset VideoFormat c = of_option VStr (preset args)
  /\ forall name items key v,
       preset args = Some name -> preset_configs !! name = Some items ->
       In (key, v) items ->
       _build_stream_config args !! key = Some v
       /\ call_config VideoFormat c !! key = initial_config args !! key.
Proof.
  unfold Video.VideoStreamCommand_stream_video.
  destruct (_FORMAT_CHOICE_MAP !! format args) as [fmt | ]; [ | discriminate ].
  intros H. injection H as Hc.
  assert (E : call_config VideoFormat c = delete "format" (initial_config args))
    by (rewrite <- Hc; reflexivity).
  assert (P : kw_preset VideoFormat c = of_option VStr (preset args))
    by (rewrite <- Hc; reflexivity).
  clear Hc.
  split; [ exact E | split; [ exact P | ] ].
  intros name items key v Hp Hl Hin.
  destruct (preset_configs_inv _ _ Hl) as (_ & _ & _ & _ & _ & _ & _ & Hnd).
  split.
  - rewrite (build_with_preset _ _ _ Hp Hl).
    apply assign_lookup_last; assumption.
  - rewrite E. apply lookup_delete_ne.
    destruct (preset_key_in_config _ _ _ _ Hl Hin) as [Hne _]. congruence.
Qed.


Lemma in_choices_inv choices given :
  in_choices choices given = true ->
  given = None \/ exists s, given = Some s /\ In s choices.
Proof.
  destruct given as [s | ]; simpl; [ | auto ].
  rewrite existsb_exists. intros (c & Hin & Heq).
  apply String.eqb_eq in Heq. subst. eauto.
Qed.

Lemma parse_args_inv o args :
  parse_args o = Some args ->
  no_b_frames args = true /\ realtime_optimization args = true
  /\ preset args = opt_preset o
  /\ (preset args = None
      \/ preset args = Some "streaming" \/ preset args = Some "low-latency"
      \/ preset args = Some "high-quality")
  /\ keyframe_interval args = default 30 (opt_keyframe_interval o)
  /\ max_bitrate args = default 4000 (opt_max_bitrate o)
  /\ buffer_size args = default 2000 (opt_buffer_size o)
  /\ compression_quality args = default f0_8 (opt_compression_quality o)
  /\ scale_factor args = default f1_0 (opt_scale_factor o).
Proof.
  unfold Video.parse_args.
  destruct (in_choices _ (opt_format o)); simpl; [ | discriminate ].
  destruct (in_choices _ (opt_profile o)); simpl; [ | discriminate ].
  destruct (in_choices _ (opt_preset o)) eqn:Hp; simpl; [ | discriminate ].
  intros H. inversion H; subst args; clear H. simpl.
  split; [ destruct (opt_no_b_frames o); reflexivity | ].
  split; [ destruct (opt_realtime_optimization o); reflexivity | ].
  split; [ reflexivity | ].
  split; [ | repeat split ].
  destruct (in_choices_inv _ _ Hp) as [-> | (s & -> & Hin)]; [ auto | ].
  simpl in Hin. destruct Hin as [<- | [<- | [<- | Hin]]]; auto. destruct Hin.
Qed.

(** X13: The flags [--no-b-frames] and [--realtime-optimization] have no
    effect: both are [store_true] with the default [True], so the
    namespace holds [True] for both whether they are given or not.  For
    every command line the parser accepts, with or without a preset, the
    configuration and the call of [client.stream_video] have frame
    reordering off and the real-time optimisation on. *)
Theorem flags_have_no_effect o args :
  parse_args o = Some args ->
  no_b_frames args = true /\ realtime_optimization args = true
  /\ _build_stream_config args !! "allow_frame_reordering" = Some (VBool false)
  /\ _build_stream_config args !! "realtime_optimization" = Some (VBool true)
  /\ forall c,
       VideoStreamCommand_stream_video args = inr c ->
       kw_allow_frame_reordering VideoFormat c = false
       /\ kw_realtime_optimization VideoFormat c = true.
Proof.
  intros Hparse.
  destruct (parse_args_inv _ _ Hparse) as (Hb & Hr & _).
  split; [ exact Hb | split; [ exact Hr | ] ].
  split; [ | split ].
  - destruct (preset args ≫= (preset_configs !!.)) as [items | ] eqn:E.
    + destruct (preset args) as [name | ] eqn:Hp; [ | discriminate ]. simpl in E.
      rewrite (build_with_preset _ _ _ Hp E).
      destruct (preset_configs_inv _ _ E) as (_ & v0 & rest & -> & _ & Hin & _ & Hnd).
      apply assign_lookup_last; [ exact Hnd | right; exact Hin ].
    + rewrite (configuration_shape_none args E).
      change (Some (VBool (negb (no_b_frames args))) = Some (VBool false)).
      rewrite Hb. reflexivity.
  - destruct (preset args ≫= (preset_configs !!.)) as [items | ] eqn:E.
    + destruct (preset args) as [name | ] eqn:Hp; [ | discriminate ]. simpl in E.
      rewrite (build_with_preset _ _ _ Hp E).
      destruct (preset_configs_inv _ _ E) as (_ & v0 & rest & -> & _ & _ & Hin & Hnd).
      apply assign_lookup_last; [ exact Hnd | right; exact Hin ].
    + rewrite (configuration_shape_none args E).
      change (Some (VBool (realtime_optimization args)) = Some (VBool true)).
      rewrite Hr. reflexivity.
  - intros c. unfold Video.VideoStreamCommand_stream_video.
    destruct (_FORMAT_CHOICE_MAP !! format args); [ | discriminate ].
    intros H. injection H as <-. simpl. rewrite Hb, Hr. auto.
Qed.

(** X14: The defaults of the parser are within the ranges of the validation:
    a command line that gives none of the keyframe interval, the maximal
    bitrate, the buffer size, the compression quality and the scale
    factor passes the validation without a warning. *)
Theorem defaults_validate o args :
  parse_args o = Some args ->
  opt_keyframe_interval o = None -> opt_max_bitrate o = None ->
  opt_buffer_size o = None -> opt_compression_quality o = None ->
  opt_scale_factor o = None ->
  _validate_args args = ([], Normal tt).
Proof.
  intros Hparse H1 H2 H3 H4 H5.
  destruct (parse_args_inv _ _ Hparse) as (_ & _ & _ & _ & Hk & Hm & Hbs & Hc & Hs).
  rewrite H1 in Hk. rewrite H2 in Hm. rewrite H3 in Hbs. rewrite H4 in Hc.
  rewrite H5 in Hs. simpl in *.
  rewrite validate_args_eq.
  unfold keyframe_warning, bitrate_warning, buffer_warning.
  rewrite Hk, Hm, Hbs, Hc, Hs. reflexivity.
Qed.

End Configuration.

(** * The further properties on the sample inputs *)

Section MoreWitnesses.

Import Reference Samples MoreSamples.

Lemma conversion_error_order_witness :
  swipe_null_2 !! "type" = Some (JStr "swipe")
  /\ swipe_null_2 !! "x" = Some JNull
  /\ Hid.convert_touch_event_to_hid float_of_str (JDict swipe_null_2)
     = raise (Exn TypeError "float() argument must be a string or a real number"
                (Some JNull)).
Proof.
  assert (Hty : swipe_null_2 !! "type" = Some (JStr "swipe")) by reflexivity.
  assert (Hx : swipe_null_2 !! "x" = Some JNull) by reflexivity.
  assert (Hy : swipe_null_2 !! "y" = Some (JInt 2)) by reflexivity.
  split; [ exact Hty | split; [ exact Hx | ] ].
  apply (proj1 (proj2 (conversion_error_order float_of_str swipe_null_2)
                  _ _ _ Hty Hx Hy)).
  reflexivity.
Defined.

Lemma other_fields_ignored_witness :
  "pressure" <> "type" /\ "pressure" <> "x" /\ "pressure" <> "y"
  /\ Hid.convert_touch_event_to_hid float_of_str
       (JDict (<["pressure" := JInt 7]> end_1_2))
     = ret (press (fl 1) (fl 2) UP).
Proof.
  assert (H1 : "pressure" <> "type") by discriminate.
  assert (H2 : "pressure" <> "x") by discriminate.
  assert (H3 : "pressure" <> "y") by discriminate.
  split; [ exact H1 | split; [ exact H2 | split; [ exact H3 | ] ] ].
  apply (proj1 (other_fields_ignored float_of_str end_1_2 "pressure" (JInt 7)
                  (press (fl 1) (fl 2) UP) H1 H2 H3)).
  vm_compute. reflexivity.
Defined.

Lemma conversion_of_non_object_witness :
  In (JStr "type") [JStr "y"; JStr "x"; JStr "type"]
  /\ Hid.convert_touch_event_to_hid float_of_str
       (JList [JStr "y"; JStr "x"; JStr "type"])
     = raise (Exn TypeError "list indices must be integers or slices, not str" None).
Proof.
  split; [ simpl; auto | ].
  apply (proj1 (proj1 (proj2 (conversion_of_non_object float_of_str)) _)).
  simpl. auto 10.
Defined.

Lemma surrounding_whitespace_ignored_witness :
  end_1_2_text <> "" /\ Str.all_space "  " = true /\ Str.all_space (CR ++ LF) = true
  /\ Hid.loop_body json_loads float_of_str
       (Hid.Returned ("  " ++ end_1_2_text ++ (CR ++ LF))%string)
     = Hid.loop_body json_loads float_of_str (Hid.Returned end_1_2_text).
Proof.
  assert (H0 : end_1_2_text <> "") by (vm_compute; discriminate).
  assert (H1 : Str.all_space "  " = true) by reflexivity.
  assert (H2 : Str.all_space (CR ++ LF) = true) by reflexivity.
  split; [ exact H0 | split; [ exact H1 | split; [ exact H2 | ] ] ].
  exact (surrounding_whitespace_ignored json_loads float_of_str _ _ _ H0 H1 H2).
Defined.

Lemma decoder_fault_closes_witness :
  depth_limited_loads 2 (Str.strip nested_3)
  = inl (Exn RecursionError "maximum recursion depth exceeded" None)
  /\ Hid.read_touch_events_from_stdin (depth_limited_loads 2) float_of_str
       [Hid.Returned start_1_2; Hid.Returned nested_3; Hid.Returned end_5_6]
     = ([ Log INFO "Starting touch event stream from stdin..." None;
          Yield (press (fl 1) (fl 2) DOWN);
          Log ERROR "Error reading stdin: "
            (Some (Exn RecursionError "maximum recursion depth exceeded" None)) ],
        Normal Hid.Closed).
Proof.
  assert (Hs : Str.strip nested_3 <> "") by (vm_compute; discriminate).
  assert (Hl : depth_limited_loads 2 (Str.strip nested_3)
               = inl (Exn RecursionError "maximum recursion depth exceeded" None))
    by (vm_compute; reflexivity).
  split; [ exact Hl | ].
  exact (decoder_fault_closes (depth_limited_loads 2) float_of_str nested_3 _
           [Hid.Returned start_1_2] [Hid.Returned end_5_6] Hs Hl eq_refl).
Defined.


Lemma validation_outcome_witness :
  Video.compression_quality nan_args = S754_nan
  /\ snd (Video._validate_args nan_args) = Normal tt
  /\ length (fst (Video._validate_args nan_args)) = 2%nat.
Proof.
  split; [ reflexivity | split; [ | reflexivity ] ].
  exact (proj1 (proj2 (validation_outcome nan_args)) eq_refl eq_refl).
Defined.

Lemma configuration_shape_witness :
  Video.preset nan_args = Some "ultra"
  /\ Video._build_stream_config nan_args = Video.initial_config nan_args.
Proof.
  split; [ reflexivity | ].
  exact (proj2 (proj2 (proj2 (configuration_shape nan_args))) eq_refl).
Defined.

Lemma preset_values_not_sent_witness :
  exists c,
    Video.VideoStreamCommand_stream_video string formats low_latency_args = inr c
    /\ Video._build_stream_config low_latency_args !! "fps" = Some (Video.VInt 60)
    /\ Video.call_config string c !! "fps" = Some (Video.VInt 24)
    /\ Video.kw_preset string c = Video.VStr "low-latency".
Proof.
  eexists. split; [ reflexivity | ].
  match goal with
  | |- context [ Video.call_config string ?c ] =>
      pose proof (preset_values_not_sent string formats low_latency_args c eq_refl)
        as (_ & Hp & Hk)
  end.
  destruct (Hk "low-latency" _ "fps" (Video.VInt 60) eq_refl eq_refl
              (or_introl eq_refl)) as [H1 H2].
  split; [ exact H1 | split; [ rewrite H2; reflexivity | exact Hp ] ].
Defined.

Lemma flags_have_no_effect_witness :
  exists args,
    Video.parse_args string "h264" formats no_options = Some args
    /\ Video.no_b_frames args = true
    /\ Video._build_stream_config args !! "allow_frame_reordering"
       = Some (Video.VBool false).
Proof.
  eexists. split; [ reflexivity | ].
  match goal with
  | |- Video.no_b_frames ?a = _ /\ _ =>
      pose proof (flags_have_no_effect string "h264" formats no_options a eq_refl)
        as (H1 & _ & H2 & _)
  end.
  split; [ exact H1 | exact H2 ].
Defined.

Lemma defaults_validate_witness :
  exists args,
    Video.parse_args string "h264" formats no_options = Some args
    /\ Video._validate_args args = ([], Normal tt).
Proof.
  eexists. split; [ reflexivity | ].
  exact (defaults_validate string "h264" formats no_options _ eq_refl
           eq_refl eq_refl eq_refl eq_refl eq_refl).
Defined.

End MoreWitnesses.
